(** * TFN Digital Check-In: roster import and check-in resolution

    A shallow embedding of the upload module ([onFileReady],
    [processAndUpload], [withTimeout]), of the check-in module
    ([handleManualCheckIn], [lookupAndCheckIn]) and of the selected-event
    cell of the events module, over an explicit model of the Firestore
    collection "attendees".

    Conventions.
    - A JS string is a [string] of 8-bit code units read as Latin-1.
    - A Firestore document is a finite map from field names to values.
    - The collection is a list of (id, document) pairs in the store's
      document order; [limit(1)] returns the first match in that order.
    - Every request to the store consumes one reply of the environment:
      whether the store serves it, after how many milliseconds, and the
      server time at which it is served. *)

From Stdlib Require Import String Ascii List Arith NArith Lia DecimalString.
From stdpp Require Import base option list strings gmap fin_maps.
Import ListNotations.

Local Open Scope string_scope.
Local Open Scope list_scope.

(** ** JS strings *)

Module Js.

(** [WhiteSpace] and [LineTerminator] code units below 256:
    TAB, LF, VT, FF, CR, SP and NBSP. *)
Definition isWhiteSpace (c : ascii) : bool :=
  let n := nat_of_ascii c in
  ((9 <=? n)%nat && (n <=? 13)%nat) || (n =? 32)%nat || (n =? 160)%nat.

(** Latin-1 letters with a lower-case partner 32 code units above. *)
Definition isUpper (c : ascii) : bool :=
  let n := nat_of_ascii c in
  ((65 <=? n)%nat && (n <=? 90)%nat)
  || ((192 <=? n)%nat && (n <=? 222)%nat && negb (n =? 215)%nat).

Definition lowerChar (c : ascii) : ascii :=
  if isUpper c then ascii_of_nat (nat_of_ascii c + 32) else c.

(** [String.prototype.toLowerCase] *)
Fixpoint toLowerCase (s : string) : string :=
  match s with
  | EmptyString => EmptyString
  | String c r => String (lowerChar c) (toLowerCase r)
  end.

Fixpoint trimStart (s : string) : string :=
  match s with
  | EmptyString => EmptyString
  | String c r => if isWhiteSpace c then trimStart r else s
  end.

Fixpoint revOnto (s acc : string) : string :=
  match s with
  | EmptyString => acc
  | String c r => revOnto r (String c acc)
  end.

Definition reverse (s : string) : string := revOnto s EmptyString.

Definition trimEnd (s : string) : string := reverse (trimStart (reverse s)).

(** [String.prototype.trim] *)
Definition trim (s : string) : string := trimEnd (trimStart s).

(** [Array.prototype.join] *)
Fixpoint join (sep : string) (xs : list string) : string :=
  match xs with
  | [] => ""
  | [x] => x
  | x :: rest => x +:+ sep +:+ join sep rest
  end.

(** [Array.prototype.includes] on an array of strings *)
Definition includes (xs : list string) (x : string) : bool :=
  existsb (String.eqb x) xs.

(** Truthiness of a string-valued property that may be absent
    ([undefined]): only the empty string and [undefined] are falsy. *)
Definition truthyStr (v : option string) : bool :=
  match v with
  | Some s => negb (String.eqb s "")
  | None => false
  end.

(** [v || ""] *)
Definition orEmpty (v : option string) : string :=
  match v with
  | Some s => if String.eqb s "" then "" else s
  | None => ""
  end.

(** A string all of whose code units are white space. *)
Fixpoint allWhiteSpace (s : string) : bool :=
  match s with
  | EmptyString => true
  | String c r => isWhiteSpace c && allWhiteSpace r
  end.

End Js.

(** ** Firestore values and documents *)

Definition Timestamp := nat.
Definition DocId := nat.

Inductive Value :=
| VStr (s : string)
| VBool (b : bool)
| VNull
| VTime (t : Timestamp)
| VServerTimestamp.   (* the sentinel [FieldValue.serverTimestamp()] *)

#[global] Instance Value_eq_dec : EqDecision Value.
Proof. solve_decision. Defined.

Abbreviation Doc := (gmap string Value).

(** JS truthiness of [data.field]. A sentinel never comes back from a read;
    as an object it would be truthy. *)
Definition truthy (v : option Value) : bool :=
  match v with
  | Some (VStr s) => negb (String.eqb s "")
  | Some (VBool b) => b
  | Some VNull => false
  | Some (VTime _) => true
  | Some VServerTimestamp => true
  | None => false
  end.

(** The server replaces the sentinel by its own clock when it applies a
    write. *)
Definition resolveValue (now : Timestamp) (v : Value) : Value :=
  match v with
  | VServerTimestamp => VTime now
  | _ => v
  end.

Definition resolveDoc (now : Timestamp) (d : Doc) : Doc :=
  resolveValue now <$> d.

(** ** The attendees collection and the store's replies *)

Record Reply := mkReply {
  latency : N;          (* milliseconds until the promise settles *)
  served  : bool;       (* false: the request is rejected by the store *)
  stamp   : Timestamp   (* server time when the request is applied *)
}.

Definition Env := nat -> Reply.

Inductive Cause :=
| Rejected (call : nat)       (* the store promise rejected *)
| TimedOut (ms : N)           (* [new Error(`Timed out after ${ms}ms`)] *)
| TypeError.                  (* [data.checkInTime.toDate] is not a function *)

Record World := mkWorld {
  docs   : list (DocId * Doc);
  nextId : DocId;
  calls  : nat;   (* requests sent to the store so far *)
  writes : nat    (* writes applied by the store so far *)
}.

Inductive Query :=
| QAll                                       (* attendeesRef *)
| QPrn (prn : string)                        (* where("prn","==",prn) *)
| QPrnEvent (prn : string) (eventId : string).
                     (* where("prn","==",prn).where("eventId","==",eventId) *)

Definition fieldIs (d : Doc) (k : string) (s : string) : bool :=
  bool_decide (d !! k = Some (VStr s)).

Definition matches (q : Query) (d : Doc) : bool :=
  match q with
  | QAll => true
  | QPrn prn => fieldIs d "prn" prn
  | QPrnEvent prn eventId => fieldIs d "prn" prn && fieldIs d "eventId" eventId
  end.

(** [q.limit(1).get()] on the server: the first matching document. *)
Definition firstMatch (q : Query) (ds : list (DocId * Doc)) : option (DocId * Doc) :=
  find (fun p => matches q (snd p)) ds.

Definition lookupDoc (id : DocId) (ds : list (DocId * Doc)) : option Doc :=
  snd <$> find (fun p => Nat.eqb (fst p) id) ds.

(** [ref.update(patch)]: the patch's fields replace the stored ones. *)
Definition patchDoc (id : DocId) (patch : Doc) (ds : list (DocId * Doc))
  : list (DocId * Doc) :=
  map (fun p => if Nat.eqb (fst p) id then (fst p, patch ∪ snd p) else p) ds.

(** ** Awaiting the store

    [settle tmo r call] is the error, if any, with which the awaited promise
    rejects. Under [withTimeout(promise, ms)] the request is sent before the
    timer is armed, so the race is won by the store when its reply is due no
    later than the timer, a reply due at exactly [ms] included; a bare
    [await] waits for the reply however long it takes. *)

Definition settle (tmo : option N) (r : Reply) (call : nat) : option Cause :=
  match tmo with
  | Some ms =>
      if (latency r <=? ms)%N
      then (if served r then None else Some (Rejected call))
      else Some (TimedOut ms)
  | None => if served r then None else Some (Rejected call)
  end.

Definition bump (w : World) : World :=
  mkWorld (docs w) (nextId w) (S (calls w)) (writes w).

Section Store.

Variable env : Env.

(** [query.limit(1).get()], possibly under [withTimeout]. *)
Definition storeGet (tmo : option N) (q : Query) (w : World)
  : (option (DocId * Doc) + Cause) * World :=
  match settle tmo (env (calls w)) (calls w) with
  | None => (inl (firstMatch q (docs w)), bump w)
  | Some err => (inr err, bump w)
  end.

(** [attendeesRef.add(docData)], possibly under [withTimeout]. The race
    does not cancel the request: a served write reaches the collection
    even when the timer has already rejected the caller. *)
Definition storeAdd (tmo : option N) (d : Doc) (w : World)
  : option Cause * World :=
  let r := env (calls w) in
  let w' :=
    if served r
    then mkWorld (docs w ++ [(nextId w, resolveDoc (stamp r) d)])
                 (S (nextId w)) (S (calls w)) (S (writes w))
    else bump w in
  (settle tmo r (calls w), w').

(** [doc.ref.update(patch)]: one write to one document; it rejects when
    the document no longer exists. *)
Definition storeUpdate (id : DocId) (patch : Doc) (w : World)
  : option Cause * World :=
  let r := env (calls w) in
  match settle None r (calls w), lookupDoc id (docs w) with
  | None, Some _ =>
      (None, mkWorld (patchDoc id (resolveDoc (stamp r) patch) (docs w))
                     (nextId w) (S (calls w)) (S (writes w)))
  | None, None => (Some (Rejected (calls w)), bump w)
  | Some err, _ => (Some err, bump w)
  end.

End Store.

(** ** What the operator sees

    The DOM is reduced to the writes that carry information: the result
    panel chosen by [showState], toasts, console errors, the text of
    [alreadyTime], the rendered attendee card and the three result counters
    of the upload page. Visibility toggles and the progress bar are left
    out. A toast is kept as the template it is built from. *)

Inductive ResultState := Default | Loading | Success | Already | NotFound.

Inductive ToastType := TSuccess | TError | TWarning | TInfo.

Inductive Message :=
| MsgSelectEventFirst
    (* "Please select an event first from the Events page!" *)
| MsgEnterPrn
    (* "Please enter a PRN" *)
| MsgNoRegistration
    (* "No registration found for this QR code" *)
| MsgAlreadyCheckedIn (name : option Value)
    (* `${data.name} is already checked in!` *)
| MsgCheckedIn (name : option Value)
    (* `${data.name} checked in successfully!` *)
| MsgCheckInError
    (* "Error during check-in. Please try again." *)
| MsgMissingColumns (missing : list string)
    (* `Missing columns: ${missing.join(", ")}` *)
| MsgNoValidRows
    (* "CSV has no valid rows" *)
| MsgParsed (n : nat)
    (* `Parsed ${parsedData.length} records — generating QR codes...` *)
| MsgCannotReach
    (* "Cannot reach Firebase! Disable ad-blockers / privacy extensions
       for this site, then retry." *)
| MsgUploadComplete (uploaded skipped failed : nat)
    (* `Upload complete: ${uploaded} added, ${skipped} skipped,
       ${failed} failed` *)
| MsgSwitched (eventName : string).
    (* `Switched to event: ${eventName}` *)

Inductive LogLabel :=
| LogCheckIn                   (* "Check-in error:" *)
| LogConnectivity              (* "Firebase connectivity check failed:" *)
| LogRow (prn : string).       (* `Failed to process ${row.prn}:` *)

Inductive Container := AttendeeDetails | AttendeeDetailsAlready.

Inductive Effect :=
| ShowState (s : ResultState)
| ShowToast (m : Message) (ty : ToastType)
| ConsoleError (label : LogLabel) (err : Cause)
| SetAlreadyTime (t : option Timestamp)
    (* `Checked in at: ${checkInTime}`; [None] is "Unknown time" *)
| RenderAttendeeDetails (c : Container) (data : Doc)
| ShowResults (uploaded skipped failed : nat).
    (* totalUploaded, totalSkipped, totalFailed *)

#[global] Instance ResultState_eq_dec : EqDecision ResultState.
Proof. solve_decision. Defined.

(** The panel left on screen: the last [showState] of a trace. *)
Fixpoint shownFrom (cur : option ResultState) (t : list Effect)
  : option ResultState :=
  match t with
  | [] => cur
  | ShowState s :: rest => shownFrom (Some s) rest
  | _ :: rest => shownFrom cur rest
  end.

Definition shown (t : list Effect) : option ResultState := shownFrom None t.

Definition toasts (t : list Effect) : list (Message * ToastType) :=
  omap (fun e => match e with ShowToast m ty => Some (m, ty) | _ => None end) t.

Definition logged (t : list Effect) : list (LogLabel * Cause) :=
  omap (fun e => match e with ConsoleError l c => Some (l, c) | _ => None end) t.

(** ** Events module: the selected event *)

Record Events := mkEvents {
  selectedEventId   : option string;   (* [null] is [None] *)
  selectedEventName : string
}.

Definition noEvent : Events := mkEvents None "".

Definition getSelectedEventId (ev : Events) : option string :=
  selectedEventId ev.

Definition selectEvent (eventId eventName : string) (ev : Events)
  : Events * list Effect :=
  (mkEvents (Some eventId) eventName, [ShowToast (MsgSwitched eventName) TInfo]).

(** ** Check-in module *)

(** The two fields written by the check-in transition. *)
Definition checkInPatch : Doc :=
  <["checkedIn" := VBool true]> (<["checkInTime" := VServerTimestamp]> ∅).

(** [data.checkInTime ? data.checkInTime.toDate().toLocaleString()
                      : "Unknown time"];
    a truthy value that is not a timestamp has no [toDate]. *)
Definition checkInTimeOf (data : Doc) : option Timestamp + Cause :=
  if truthy (data !! "checkInTime") then
    match data !! "checkInTime" with
    | Some (VTime t) => inl (Some t)
    | _ => inr TypeError
    end
  else inl None.

(** The [catch] block of [lookupAndCheckIn]. *)
Definition onCheckInError (err : Cause) : list Effect :=
  [ConsoleError LogCheckIn err; ShowState NotFound;
   ShowToast MsgCheckInError TError].

Definition onAlready (data : Doc) : list Effect :=
  match checkInTimeOf data with
  | inl t =>
      [SetAlreadyTime t; RenderAttendeeDetails AttendeeDetailsAlready data;
       ShowState Already;
       ShowToast (MsgAlreadyCheckedIn (data !! "name")) TWarning]
  | inr err => onCheckInError err
  end.

Definition onSuccess (data : Doc) : list Effect :=
  [RenderAttendeeDetails AttendeeDetails data; ShowState Success;
   ShowToast (MsgCheckedIn (data !! "name")) TSuccess].

Section CheckIn.

Variable env : Env.

Definition lookupAndCheckIn (ev : Events) (prn : string) (w : World)
  : World * list Effect :=
  let eventId := getSelectedEventId ev in
  if negb (Js.truthyStr eventId) then
    (w, [ShowState Loading; ShowToast MsgSelectEventFirst TWarning;
         ShowState Default])
  else
    match storeGet env None (QPrnEvent prn (Js.orEmpty eventId)) w with
    | (inr err, w1) => (w1, ShowState Loading :: onCheckInError err)
    | (inl None, w1) =>
        (w1, [ShowState Loading; ShowState NotFound;
              ShowToast MsgNoRegistration TError])
    | (inl (Some (id, data)), w1) =>
        if truthy (data !! "checkedIn") then
          (w1, ShowState Loading :: onAlready data)
        else
          match storeUpdate env id checkInPatch w1 with
          | (Some err, w2) => (w2, ShowState Loading :: onCheckInError err)
          | (None, w2) => (w2, ShowState Loading :: onSuccess data)
          end
    end.

(** [handleManualCheckIn] with the text of the PRN input. *)
Definition handleManualCheckIn (ev : Events) (text : string) (w : World)
  : World * list Effect :=
  let prn := Js.trim text in
  if negb (Js.truthyStr (Some prn)) then (w, [ShowToast MsgEnterPrn TWarning])
  else lookupAndCheckIn ev prn w.

(** *** The same function cut at its two [await]s

    Between the read and the update the attempt is suspended holding the
    snapshot it read; other clients of the collection may run then. *)

Inductive Attempt :=
| Ready (prn : string)
| AwaitingUpdate (id : DocId) (data : Doc)
| Settled.

Definition stepAttempt (ev : Events) (a : Attempt) (w : World)
  : Attempt * World * list Effect :=
  match a with
  | Ready prn =>
      let eventId := getSelectedEventId ev in
      if negb (Js.truthyStr eventId) then
        (Settled, w, [ShowState Loading;
                      ShowToast MsgSelectEventFirst TWarning;
                      ShowState Default])
      else
        match storeGet env None (QPrnEvent prn (Js.orEmpty eventId)) w with
        | (inr err, w1) => (Settled, w1, ShowState Loading :: onCheckInError err)
        | (inl None, w1) =>
            (Settled, w1, [ShowState Loading; ShowState NotFound;
                           ShowToast MsgNoRegistration TError])
        | (inl (Some (id, data)), w1) =>
            if truthy (data !! "checkedIn") then
              (Settled, w1, ShowState Loading :: onAlready data)
            else (AwaitingUpdate id data, w1, [ShowState Loading])
        end
  | AwaitingUpdate id data =>
      match storeUpdate env id checkInPatch w with
      | (Some err, w2) => (Settled, w2, onCheckInError err)
      | (None, w2) => (Settled, w2, onSuccess data)
      end
  | Settled => (Settled, w, [])
  end.

(** Run an attempt for at most [n] resumptions. *)
Fixpoint runAttempt (n : nat) (ev : Events) (a : Attempt) (w : World)
  : Attempt * World * list Effect :=
  match n with
  | O => (a, w, [])
  | S k =>
      let '(a1, w1, t1) := stepAttempt ev a w in
      let '(a2, w2, t2) := runAttempt k ev a1 w1 in
      (a2, w2, t1 ++ t2)
  end.

(** Two clients resolving against the same collection. *)
Inductive Who := First | Second.

Record Race := mkRace {
  attempt1 : Attempt; trace1 : list Effect;
  attempt2 : Attempt; trace2 : list Effect;
  shared   : World
}.

Definition stepRace (ev : Events) (who : Who) (r : Race) : Race :=
  match who with
  | First =>
      let '(a, w, t) := stepAttempt ev (attempt1 r) (shared r) in
      mkRace a (trace1 r ++ t) (attempt2 r) (trace2 r) w
  | Second =>
      let '(a, w, t) := stepAttempt ev (attempt2 r) (shared r) in
      mkRace (attempt1 r) (trace1 r) a (trace2 r ++ t) w
  end.

Fixpoint interleave (ev : Events) (sched : list Who) (r : Race) : Race :=
  match sched with
  | [] => r
  | who :: rest => interleave ev rest (stepRace ev who r)
  end.

Definition startRace (prn : string) (w : World) : Race :=
  mkRace (Ready prn) [] (Ready prn) [] w.

End CheckIn.

(** ** Upload module *)

(** One object of [results.data]: header name to cell text. A short line
    leaves its trailing columns [undefined]. *)
Abbreviation RawRow := (gmap string string).

Record ParseResults := mkResults {
  fields : list string;     (* results.meta.fields *)
  data   : list RawRow      (* results.data *)
}.

(** One element of [parsedData]. *)
Record Row := mkRow {
  name : string; prn : string; email : string; mobile : string; year : string
}.

Record Upload := mkUpload {
  parsedData : list Row;
  qrDataMap  : gmap string string;   (* PRN to data URL *)
  processBtnEnabled : bool
}.

Definition REQUIRED_COLUMNS : list string :=
  ["name"; "prn"; "email"; "mobile"; "year"].

Definition PROBE_TIMEOUT_MS : N := 8000.
Definition ROW_TIMEOUT_MS : N := 10000.

(** [transformHeader: (h) => h.trim().toLowerCase()] *)
Definition transformHeader (h : string) : string :=
  Js.toLowerCase (Js.trim h).

(** [REQUIRED_COLUMNS.filter((col) => !headers.includes(col))] *)
Definition missingColumns (fs : list string) : list string :=
  let headers := map Js.toLowerCase fs in
  List.filter (fun col => negb (Js.includes headers col)) REQUIRED_COLUMNS.

(** [(row) => row.name && row.prn] *)
Definition keepRow (row : RawRow) : bool :=
  Js.truthyStr (row !! "name") && Js.truthyStr (row !! "prn").

Definition cleanRow (row : RawRow) : Row :=
  mkRow (Js.trim (Js.orEmpty (row !! "name")))
        (Js.trim (Js.orEmpty (row !! "prn")))
        (Js.trim (Js.orEmpty (row !! "email")))
        (Js.trim (Js.orEmpty (row !! "mobile")))
        (Js.trim (Js.orEmpty (row !! "year"))).

Definition resetUpload : Upload := mkUpload [] ∅ false.

Record Counters := mkCounters { uploaded : nat; skipped : nat; failed : nat }.

Inductive UploadOutcome :=
| Idle                                   (* nothing parsed: immediate return *)
| ConnectivityFailed (err : Cause)       (* the probe threw *)
| Finished (c : Counters) (total : nat). (* the loop ran to its end *)

(** The document built for a new attendee. *)
Definition docData (qr : gmap string string) (row : Row) : Doc :=
  <["name" := VStr (name row)]> (
  <["prn" := VStr (prn row)]> (
  <["email" := VStr (email row)]> (
  <["mobile" := VStr (mobile row)]> (
  <["year" := VStr (year row)]> (
  <["qrData" := VStr (Js.orEmpty (qr !! prn row))]> (
  <["checkedIn" := VBool false]> (
  <["checkInTime" := VNull]> (
  <["createdAt" := VServerTimestamp]> ∅)))))))).

Section UploadModule.

Variable env : Env.

(** The QR library and canvas: text to PNG data URL. *)
Variable generateQRCode : string -> string.

(** The [complete] callback of [Papa.parse] in [onFileReady]. *)
Definition onParseComplete (results : ParseResults) : Upload * list Effect :=
  let missing := missingColumns (fields results) in
  if (0 <? length missing)%nat then
    (resetUpload, [ShowToast (MsgMissingColumns missing) TError])
  else
    let parsed := map cleanRow (List.filter keepRow (data results)) in
    if (length parsed =? 0)%nat then
      (resetUpload, [ShowToast MsgNoValidRows TError])
    else
      let qr := fold_left
                  (fun m row => <[prn row := generateQRCode (prn row)]> m)
                  parsed ∅ in
      (mkUpload parsed qr true, [ShowToast (MsgParsed (length parsed)) TSuccess]).

(** [Papa.parse] with [header: true] and the module's [transformHeader],
    given the header line's cells and the row objects keyed by the
    transformed names. *)
Definition onFileReady (headerCells : list string) (rows : list RawRow)
  : Upload * list Effect :=
  onParseComplete (mkResults (map transformHeader headerCells) rows).

(** One turn of the [for] loop of [processAndUpload]. *)
Definition uploadRow (qr : gmap string string) (row : Row)
    (c : Counters) (w : World) : Counters * World * list Effect :=
  match storeGet env (Some ROW_TIMEOUT_MS) (QPrn (prn row)) w with
  | (inr err, w1) =>
      (mkCounters (uploaded c) (skipped c) (S (failed c)), w1,
       [ConsoleError (LogRow (prn row)) err])
  | (inl (Some _), w1) =>
      (mkCounters (uploaded c) (S (skipped c)) (failed c), w1, [])
  | (inl None, w1) =>
      match storeAdd env (Some ROW_TIMEOUT_MS) (docData qr row) w1 with
      | (Some err, w2) =>
          (mkCounters (uploaded c) (skipped c) (S (failed c)), w2,
           [ConsoleError (LogRow (prn row)) err])
      | (None, w2) =>
          (mkCounters (S (uploaded c)) (skipped c) (failed c), w2, [])
      end
  end.

Fixpoint uploadLoop (qr : gmap string string) (rows : list Row)
    (c : Counters) (w : World) : Counters * World * list Effect :=
  match rows with
  | [] => (c, w, [])
  | row :: rest =>
      let '(c1, w1, t1) := uploadRow qr row c w in
      let '(c2, w2, t2) := uploadLoop qr rest c1 w1 in
      (c2, w2, t1 ++ t2)
  end.

Definition processAndUpload (u : Upload) (w : World)
  : UploadOutcome * World * list Effect :=
  if (length (parsedData u) =? 0)%nat then (Idle, w, [])
  else
    match storeGet env (Some PROBE_TIMEOUT_MS) QAll w with
    | (inr err, w1) =>
        (ConnectivityFailed err, w1,
         [ConsoleError LogConnectivity err; ShowToast MsgCannotReach TError])
    | (inl _, w1) =>
        let total := length (parsedData u) in
        let '(c, w2, t) :=
          uploadLoop (qrDataMap u) (parsedData u) (mkCounters 0 0 0) w1 in
        (Finished c total, w2,
         t ++ [ShowResults (uploaded c) (skipped c) (failed c);
               ShowToast (MsgUploadComplete (uploaded c) (skipped c) (failed c))
                         (if (0 <? failed c)%nat then TWarning else TSuccess)])
    end.

End UploadModule.

(** ** The page: one operator session *)

Record App := mkApp {
  events : Events;
  upload : Upload;
  world  : World
}.

(** Click on "Process & Upload". A disabled button takes no click; the
    handler disables the button once it has rows to work on and enables it
    again only when the probe fails. *)
Definition onProcessClick (env : Env) (a : App)
  : UploadOutcome * App * list Effect :=
  if processBtnEnabled (upload a) then
    let '(o, w, t) := processAndUpload env (upload a) (world a) in
    let enabled :=
      match o with
      | Idle => true
      | ConnectivityFailed _ => true
      | Finished _ _ => false
      end in
    (o, mkApp (events a)
              (mkUpload (parsedData (upload a)) (qrDataMap (upload a)) enabled)
              w, t)
  else (Idle, a, []).

(** Click on the manual check-in button with [text] in the PRN input. *)
Definition onManualCheckInClick (env : Env) (text : string) (a : App)
  : App * list Effect :=
  let '(w, t) := handleManualCheckIn env (events a) text (world a) in
  (mkApp (events a) (upload a) w, t).

(** ** Record invariant *)

(** [checkedIn] and [checkInTime] agree: a checked-in record carries a
    timestamp, a record not yet checked in carries [null]. *)
Definition stateOk (d : Doc) : bool :=
  match d !! "checkedIn", d !! "checkInTime" with
  | Some (VBool true), Some (VTime _) => true
  | Some (VBool false), Some VNull => true
  | _, _ => false
  end.

Definition worldOk (w : World) : Prop :=
  Forall (fun p => stateOk (snd p) = true) (docs w).

(** ** Fixtures used by the examples *)

Definition servedEnv : Env := fun n => mkReply 20 true (100 + n).

(** The store rejects request number [k] and serves every other one. *)
Definition rejectAt (k : nat) : Env :=
  fun n => mkReply 20 (negb (Nat.eqb n k)) (100 + n).

(** Request number [k] takes [ms] milliseconds. *)
Definition slowAt (k : nat) (ms : N) : Env :=
  fun n => mkReply (if Nat.eqb n k then ms else 20) true (100 + n).

Definition emptyWorld : World := mkWorld [] 0 0 0.

Definition demoQr (s : string) : string := "data:image/png;base64," +:+ s.

Definition rawRow (n p e m y : string) : RawRow :=
  <["name" := n]> (<["prn" := p]> (<["email" := e]> (
  <["mobile" := m]> (<["year" := y]> ∅)))).

Definition fullHeader : list string :=
  ["Name"; "PRN"; "Email"; "Mobile"; "Year"].

Definition festival : Events := mkEvents (Some "E1") "Tech Fest".

(** An attendee of event [ev] as the check-in module expects to find it. *)
Definition attendee (ev p n : string) (checked : option Timestamp) : Doc :=
  <["eventId" := VStr ev]> (
  <["prn" := VStr p]> (
  <["name" := VStr n]> (
  <["checkedIn" := VBool (bool_decide (is_Some checked))]> (
  <["checkInTime" := from_option VTime VNull checked]> ∅)))).



Arguments settle : simpl never.
Arguments storeGet : simpl never.
Arguments storeAdd : simpl never.
Arguments storeUpdate : simpl never.
Arguments uploadRow : simpl never.

(** The same code scanned [n] times in a row. *)
Fixpoint resolveTimes (env : Env) (n : nat) (ev : Events) (prn : string)
    (w : World) : World * list (list Effect) :=
  match n with
  | O => (w, [])
  | S k =>
      let '(w1, t) := lookupAndCheckIn env ev prn w in
      let '(w2, ts) := resolveTimes env k ev prn w1 in
      (w2, t :: ts)
  end.

(** What an already-checked-in record puts on screen. *)
Definition alreadyTrace (d : Doc) (t : Timestamp) : list Effect :=
  [ShowState Loading; SetAlreadyTime (Some t);
   RenderAttendeeDetails AttendeeDetailsAlready d; ShowState Already;
   ShowToast (MsgAlreadyCheckedIn (d !! "name")) TWarning].

(** What the [catch] block of the check-in puts on screen. *)
Definition errorTrace (err : Cause) : list Effect :=
  [ShowState Loading; ConsoleError LogCheckIn err; ShowState NotFound;
   ShowToast MsgCheckInError TError].

Definition who_eqb (a b : Who) : bool :=
  match a, b with
  | First, First | Second, Second => true
  | _, _ => false
  end.

Definition turns (who : Who) (sched : list Who) : nat :=
  length (List.filter (who_eqb who) sched).

(** Both clients have read before either has written. *)
Definition readsFirst (sched : list Who) : bool :=
  match sched with
  | a :: b :: _ => negb (who_eqb a b)
  | _ => false
  end.

(** Unfolds one turn of a race without unfolding the attempt itself. *)
Ltac race_beta :=
  cbn [interleave stepRace startRace attempt1 attempt2 trace1 trace2 shared].

(** ** Check-in module: the camera scanner's cooldown *)

Record Scanner := mkScanner {
  scanCooldown    : bool;
  lastScannedCode : string
}.

Definition idleScanner : Scanner := mkScanner false "".

Definition SCAN_COOLDOWN_MS : N := 3000.

(** [onScanSuccess(decodedText)]. [Some prn] stands for the call
    [lookupAndCheckIn(prn)] it starts, together with the timer of
    [SCAN_COOLDOWN_MS] it arms; the beep is left out. *)
Definition onScanSuccess (decodedText : string) (sc : Scanner)
  : Scanner * option string :=
  if scanCooldown sc || String.eqb decodedText (lastScannedCode sc)
  then (sc, None)
  else (mkScanner true decodedText, Some (Js.trim decodedText)).

(** The callback of the cooldown timer. *)
Definition onCooldownElapsed (sc : Scanner) : Scanner := mkScanner false "".

(** Codes decoded one after the other with no timer firing in between:
    the lookups they start, in order. *)
Fixpoint scanBurst (texts : list string) (sc : Scanner)
  : Scanner * list string :=
  match texts with
  | [] => (sc, [])
  | t :: rest =>
      let '(sc1, started) := onScanSuccess t sc in
      let '(sc2, more) := scanBurst rest sc1 in
      (sc2, match started with Some p => p :: more | None => more end)
  end.

(** ** Upload module: [retryAsync] *)

Inductive Retried (A E : Type) :=
| Returned (a : A)        (* [return await fn()] *)
| Threw (e : E)           (* [throw err] on the last attempt *)
| ReturnedUndefined.      (* the loop body never ran *)

Arguments Returned {A E} a.
Arguments Threw {A E} e.
Arguments ReturnedUndefined {A E}.

(** The [for] loop from [attempt] on with [left] attempts to go;
    [fn k] is what the [k]-th call of [fn] settles to. The result comes
    with the number of calls made and the milliseconds slept in between. *)
Fixpoint retryLoop {A E : Type} (fn : nat -> A + E) (attempt left : nat)
  : Retried A E * nat * nat :=
  match left with
  | O => (ReturnedUndefined, 0, 0)
  | S left' =>
      match fn attempt with
      | inl a => (Returned a, 1, 0)
      | inr e =>
          match left' with
          | O => (Threw e, 1, 0)               (* attempt === maxRetries *)
          | S _ =>
              let '(r, n, slept) := retryLoop fn (S attempt) left' in
              (r, S n, 500 * attempt + slept)
          end
      end
  end.

Definition retryAsync {A E : Type} (fn : nat -> A + E) (maxRetries : nat)
  : Retried A E * nat * nat :=
  retryLoop fn 1 maxRetries.

(** ** Dashboard module *)

Record Dashboard := mkDashboard {
  allAttendees  : list (DocId * Doc);   (* cached rows: document id, data *)
  currentFilter : string;               (* "all", "checked-in" or "pending" *)
  searchInput   : string
}.

(** The three counting stat cards of [updateStats]; the percentage card is
    a floating-point rounding and is not part of the model. *)
Definition statTotal (d : Dashboard) : nat := length (allAttendees d).

Definition statCheckedIn (d : Dashboard) : nat :=
  length (List.filter (fun a => truthy (snd a !! "checkedIn")) (allAttendees d)).

Definition statPending (d : Dashboard) : nat :=
  statTotal d - statCheckedIn d.

(** [s.startsWith(needle)] and [s.includes(needle)] *)
Fixpoint startsWith (s needle : string) : bool :=
  match needle, s with
  | EmptyString, _ => true
  | String c n, String c' r => Ascii.eqb c c' && startsWith r n
  | String _ _, EmptyString => false
  end.

Fixpoint strIncludes (s needle : string) : bool :=
  startsWith s needle
  || match s with
     | EmptyString => false
     | String _ r => strIncludes r needle
     end.

Definition dquote : ascii := ascii_of_nat 34.
Definition newline : string := String (ascii_of_nat 10) EmptyString.

(** The [replace] of [exportCSV]: every double quote is doubled. *)
Fixpoint doubleQuotes (s : string) : string :=
  match s with
  | EmptyString => EmptyString
  | String c r =>
      if Ascii.eqb c dquote
      then String dquote (String dquote (doubleQuotes r))
      else String c (doubleQuotes r)
  end.

(** One cell, one line and the whole text of the exported CSV. *)
Definition csvField (v : string) : string :=
  String dquote (doubleQuotes v +:+ String dquote EmptyString).

Definition csvLine (r : list string) : string :=
  Js.join "," (map csvField r).

Definition csvContent (rows : list (list string)) : string :=
  Js.join newline (map csvLine rows).

(** A reader of one quoted cell: given what follows the opening quote, the
    cell's text and what follows its closing quote. It is not part of the
    program; it serves to show that the export can be read back. *)
Fixpoint readQuoted (s : string) : option (string * string) :=
  match s with
  | EmptyString => None
  | String c r =>
      if Ascii.eqb c dquote then
        match r with
        | String c2 r2 =>
            if Ascii.eqb c2 dquote
            then (fun fr => (String dquote (fst fr), snd fr)) <$> readQuoted r2
            else Some (EmptyString, r)
        | EmptyString => Some (EmptyString, EmptyString)
        end
      else (fun fr => (String c (fst fr), snd fr)) <$> readQuoted r
  end.

Inductive ExportOutcome :=
| NothingToExport          (* toast "No data to export. Refresh or change
                              filters." *)
| ExportThrew (err : Cause)  (* an uncaught exception: no file, no toast *)
| Exported (content : string).
                           (* the file handed to the browser, then the toast
                              "CSV exported successfully" *)

Definition EXPORT_HEADER : list string :=
  ["#"; "Name"; "PRN"; "Email"; "Mobile"; "Year"; "Status"; "Check-In Time"].

Section DashboardModule.

(** [timestamp.toDate().toLocaleString()] and [String(timestamp)] *)
Variable toLocaleString : Timestamp -> string.
Variable timestampText : Timestamp -> string.

(** [String(v)], which is also what a template literal inserts. *)
Definition jsString (v : option Value) : string :=
  match v with
  | Some (VStr s) => s
  | Some (VBool true) => "true"
  | Some (VBool false) => "false"
  | Some VNull => "null"
  | Some (VTime t) => timestampText t
  | Some VServerTimestamp => "[object Object]"
  | None => "undefined"
  end.

(** [searchInput.value.toLowerCase().trim()] *)
Definition searchQuery (d : Dashboard) : string :=
  Js.trim (Js.toLowerCase (searchInput d)).

(** The filter callback shared, word for word, by [renderTable] and
    [exportCSV]. *)
Definition rowShown (d : Dashboard) (a : Doc) : bool :=
  if String.eqb (currentFilter d) "checked-in" && negb (truthy (a !! "checkedIn"))
  then false
  else if String.eqb (currentFilter d) "pending" && truthy (a !! "checkedIn")
  then false
  else if Js.truthyStr (Some (searchQuery d)) then
    strIncludes
      (Js.toLowerCase (jsString (a !! "name") +:+ " " +:+ jsString (a !! "prn")
                       +:+ " " +:+ jsString (a !! "email")))
      (searchQuery d)
  else true.

(** The rows [renderTable] puts in the table. *)
Definition visibleRows (d : Dashboard) : list (DocId * Doc) :=
  List.filter (fun a => rowShown d (snd a)) (allAttendees d).

(** One data row of the export; [i] counts from 0. *)
Definition exportRow (i : nat) (a : Doc) : list string + Cause :=
  match checkInTimeOf a with
  | inr err => inr err
  | inl t =>
      inl [NilZero.string_of_uint (Nat.to_uint (i + 1));
           jsString (a !! "name"); jsString (a !! "prn");
           jsString (a !! "email"); jsString (a !! "mobile");
           jsString (a !! "year");
           (if truthy (a !! "checkedIn") then "Checked In" else "Pending");
           match t with Some t => toLocaleString t | None => "" end]
  end.

(** The [forEach] that pushes the data rows, stopping at the first throw. *)
Fixpoint exportRowsFrom (i : nat) (l : list (DocId * Doc))
  : list (list string) + Cause :=
  match l with
  | [] => inl []
  | a :: rest =>
      match exportRow i (snd a) with
      | inr err => inr err
      | inl r =>
          match exportRowsFrom (S i) rest with
          | inr err => inr err
          | inl rs => inl (r :: rs)
          end
      end
  end.

Definition exportCSV (d : Dashboard) : ExportOutcome :=
  let exportData := visibleRows d in
  if (length exportData =? 0)%nat then NothingToExport
  else
    match exportRowsFrom 0 exportData with
    | inr err => ExportThrew err
    | inl rows => Exported (csvContent (EXPORT_HEADER :: rows))
    end.

End DashboardModule.

(** ** Events module: the events collection and the cascade *)

(** An event document as [handleAddEvent] writes it. *)
Record EventRec := mkEventRec {
  evName : string;
  evDate : string;
  evDescription : string;
  evCreatedAt : Timestamp
}.

(** Both collections. The request and write counters are those of the
    attendees' [World]. *)
Record Cloud := mkCloud {
  attendeesOf : World;
  eventsOf    : list (string * EventRec)    (* document id, data *)
}.

Record EventsPage := mkEventsPage {
  selected  : Events;
  allEvents : list (string * EventRec)
}.

Inductive EventsMessage :=
| MsgFailedLoadEvents          (* "Failed to load events from Firebase" *)
| MsgDeleting (eventName : string)
    (* `Deleting ${eventName} and its attendees...` *)
| MsgDeleted (eventName : string) (n : nat)
    (* `Event ${eventName} deleted with ${n} attendee(s)` *)
| MsgFailedDelete.             (* "Failed to delete event" *)

Inductive EventsLabel :=
| LogLoadEvents                (* "Failed to load events:" *)
| LogDeleteEvent.              (* "Failed to delete event:" *)

Inductive EventsEffect :=
| EvToast (m : EventsMessage) (ty : ToastType)
| EvConsoleError (l : EventsLabel) (err : Cause)
| EvRender (cards : list (string * EventRec)) (active : option string)
    (* [renderEvents]: the cards and the id marked as selected *)
| EvGlobalBar (eventName : option string)
    (* [updateGlobalBar]: the bar with the name, or hidden *)
| EvCommon (e : Effect).

Definition bumpCloud (c : Cloud) : Cloud :=
  mkCloud (bump (attendeesOf c)) (eventsOf c).

(** [updateGlobalBar] *)
Definition globalBar (sel : Events) : EventsEffect :=
  EvGlobalBar (if Js.truthyStr (selectedEventId sel)
               then Some (selectedEventName sel) else None).

(** [selectedEventId === eventId] *)
Definition isSelected (sel : Events) (eventId : string) : bool :=
  match selectedEventId sel with
  | Some s => String.eqb s eventId
  | None => false
  end.

Definition ofEvent (eventId : string) (x : DocId * Doc) : bool :=
  fieldIs (snd x) "eventId" eventId.

Section EventsModule.

Variable env : Env.

(** The store's [orderBy("createdAt", "desc")] on events. *)
Variable newestFirst : list (string * EventRec) -> list (string * EventRec).

(** [eventsRef.orderBy("createdAt", "desc").get()] *)
Definition eventsGet (c : Cloud)
  : (list (string * EventRec) + Cause) * Cloud :=
  let w := attendeesOf c in
  match settle None (env (calls w)) (calls w) with
  | None => (inl (newestFirst (eventsOf c)), bumpCloud c)
  | Some err => (inr err, bumpCloud c)
  end.

(** [attendeesRef.where("eventId", "==", eventId).get()] *)
Definition attendeesOfEvent (eventId : string) (c : Cloud)
  : (list (DocId * Doc) + Cause) * Cloud :=
  let w := attendeesOf c in
  match settle None (env (calls w)) (calls w) with
  | None => (inl (List.filter (ofEvent eventId) (docs w)), bumpCloud c)
  | Some err => (inr err, bumpCloud c)
  end.

(** [batch.commit()] of a batch of deletes: all of them or none. A batch
    without writes resolves without a request. *)
Definition batchDelete (ids : list DocId) (c : Cloud) : option Cause * Cloud :=
  match ids with
  | [] => (None, c)
  | _ :: _ =>
      let w := attendeesOf c in
      match settle None (env (calls w)) (calls w) with
      | None =>
          (None,
           mkCloud (mkWorld (List.filter
                               (fun x => negb (existsb (Nat.eqb (fst x)) ids))
                               (docs w))
                            (nextId w) (S (calls w)) (length ids + writes w))
                   (eventsOf c))
      | Some err => (Some err, bumpCloud c)
      end
  end.

(** [eventsRef.doc(eventId).delete()] *)
Definition eventDelete (eventId : string) (c : Cloud) : option Cause * Cloud :=
  let w := attendeesOf c in
  match settle None (env (calls w)) (calls w) with
  | None =>
      (None,
       mkCloud (mkWorld (docs w) (nextId w) (S (calls w)) (S (writes w)))
               (List.filter (fun x => negb (String.eqb (fst x) eventId))
                            (eventsOf c)))
  | Some err => (Some err, bumpCloud c)
  end.

Definition loadEvents (page : EventsPage) (c : Cloud)
  : EventsPage * Cloud * list EventsEffect :=
  let sel := selected page in
  match eventsGet c with
  | (inr err, c1) =>
      (page, c1, [EvConsoleError LogLoadEvents err;
                  EvToast MsgFailedLoadEvents TError])
  | (inl evs, c1) =>
      let render := EvRender evs (selectedEventId sel) in
      match evs with
      | first :: _ =>
          if negb (Js.truthyStr (selectedEventId sel)) then
            let '(sel', t) := selectEvent (fst first) (evName (snd first)) sel in
            (mkEventsPage sel' evs, c1,
             render :: globalBar sel' :: map EvCommon t ++ [globalBar sel'])
          else (mkEventsPage sel evs, c1, [render; globalBar sel])
      | [] => (mkEventsPage sel evs, c1, [render; globalBar sel])
      end
  end.

(** [handleDeleteEvent(eventId, eventName)]; [confirmed] is the answer to
    the confirmation dialog. *)
Definition handleDeleteEvent (confirmed : bool) (eventId eventName : string)
    (page : EventsPage) (c : Cloud) : EventsPage * Cloud * list EventsEffect :=
  if negb confirmed then (page, c, [])
  else
    let announce := EvToast (MsgDeleting eventName) TInfo in
    let caught (err : Cause) (c' : Cloud) :=
      (page, c', [announce; EvConsoleError LogDeleteEvent err;
                  EvToast MsgFailedDelete TError]) in
    match attendeesOfEvent eventId c with
    | (inr err, c1) => caught err c1
    | (inl snapshot, c1) =>
        match batchDelete (map fst snapshot) c1 with
        | (Some err, c2) => caught err c2
        | (None, c2) =>
            match eventDelete eventId c2 with
            | (Some err, c3) => caught err c3
            | (None, c3) =>
                let sel' := if isSelected (selected page) eventId
                            then mkEvents None "" else selected page in
                let '(page', c4, t) :=
                  loadEvents (mkEventsPage sel' (allEvents page)) c3 in
                (page', c4,
                 announce
                 :: EvToast (MsgDeleted eventName (length snapshot)) TSuccess
                 :: t)
            end
        end
    end.

End EventsModule.

(** ** Dashboard module: loading *)

Inductive DashMessage :=
| MsgLoaded (n : nat)          (* `Loaded ${allAttendees.length} records` *)
| MsgFailedLoadData.           (* "Failed to load data from Firebase" *)

Inductive DashEffect :=
| DashCommon (e : Effect)
| DashToast (m : DashMessage) (ty : ToastType)
| DashConsoleError (err : Cause)               (* "Dashboard load error:" *)
| DashStats (total checkedIn pending : nat)    (* [updateStats] *)
| DashTable (rows : list (DocId * Doc)).       (* rows appended by [renderTable] *)

(** The [forEach] of [renderTable]: rows are appended until one throws on
    its check-in time. *)
Fixpoint renderedRows (l : list (DocId * Doc))
  : list (DocId * Doc) * option Cause :=
  match l with
  | [] => ([], None)
  | a :: rest =>
      match checkInTimeOf (snd a) with
      | inr err => ([], Some err)
      | inl _ =>
          let '(rows, thrown) := renderedRows rest in (a :: rows, thrown)
      end
  end.

(** A document takes part in [orderBy("createdAt", ...)] only when it has
    the field. *)
Definition listedFor (eventId : string) (x : DocId * Doc) : bool :=
  ofEvent eventId x && bool_decide (is_Some (snd x !! "createdAt")).

Section DashboardLoad.

Variable env : Env.
Variable timestampText : Timestamp -> string.

(** The store's [orderBy("createdAt", "desc")] on attendees. *)
Variable newestFirst : list (DocId * Doc) -> list (DocId * Doc).

Definition updateStats (d : Dashboard) : DashEffect :=
  DashStats (statTotal d) (statCheckedIn d) (statPending d).

Definition renderTable (d : Dashboard) : list DashEffect * option Cause :=
  let '(rows, thrown) := renderedRows (visibleRows timestampText d) in
  ([DashTable rows], thrown).

Definition loadDashboard (ev : Events) (d : Dashboard) (w : World)
  : Dashboard * World * list DashEffect :=
  let eventId := getSelectedEventId ev in
  if negb (Js.truthyStr eventId) then
    let d' := mkDashboard [] (currentFilter d) (searchInput d) in
    (d', w,
     DashCommon (ShowToast MsgSelectEventFirst TWarning)
     :: updateStats d' :: fst (renderTable d'))
  else
    match settle None (env (calls w)) (calls w) with
    | Some err =>
        (d, bump w, [DashConsoleError err; DashToast MsgFailedLoadData TError])
    | None =>
        let rows :=
          newestFirst (List.filter (listedFor (Js.orEmpty eventId)) (docs w)) in
        let d' := mkDashboard rows (currentFilter d) (searchInput d) in
        match renderTable d' with
        | (t, Some err) =>
            (d', bump w,
             updateStats d' :: t
             ++ [DashConsoleError err; DashToast MsgFailedLoadData TError])
        | (t, None) =>
            (d', bump w,
             updateStats d' :: t ++ [DashToast (MsgLoaded (length rows)) TInfo])
        end
    end.

End DashboardLoad.

(** ** Fixtures for the events and dashboard examples *)

Definition twoEvents : list (string * EventRec) :=
  [("E1", mkEventRec "Tech Fest" "2026-01-10" "" 10);
   ("E2", mkEventRec "Hack Night" "" "" 20)].

Definition demoCloud : Cloud :=
  mkCloud (mkWorld [(0, attendee "E1" "1" "A" None);
                    (1, attendee "E2" "1" "Z" None);
                    (2, attendee "E1" "2" "B" (Some 5))] 3 0 0)
          twoEvents.

Definition demoPage : EventsPage := mkEventsPage festival twoEvents.

(** An ordering for the examples: the store's own order. *)
Definition asStored {A : Type} (l : list A) : list A := l.

(** ** Notions used by the further properties *)

(** [b] is [a] up to the two fields of the check-in transition. *)
Definition sameButCheckIn (a b : DocId * Doc) : Prop :=
  fst a = fst b
  /\ forall k : string,
       k <> "checkedIn" -> k <> "checkInTime" -> snd b !! k = snd a !! k.

(** How many records of the collection carry the prn [p]. *)
Definition prnCount (p : string) (ds : list (DocId * Doc)) : nat :=
  length (List.filter (fun x => fieldIs (snd x) "prn" p) ds).

Definition prnUnique (ds : list (DocId * Doc)) : Prop :=
  forall p, prnCount p ds <= 1.

(** Every request is served before the shorter of the two timers fires. *)
Definition prompt (env : Env) : Prop :=
  forall k, served (env k) = true /\ (latency (env k) < PROBE_TIMEOUT_MS)%N.

(** [n] occurs in [h] as a run of consecutive code units. *)
Definition occursIn (n h : string) : Prop :=
  exists pre post, h = pre +:+ n +:+ post.

(** * Properties *)

(** ** Strings *)

Lemma trimStart_allWhiteSpace (s : string) :
  Js.allWhiteSpace s = true -> Js.trimStart s = "".
Proof.
  induction s as [|c r IH]; simpl; [reflexivity|].
  intros H. apply andb_prop in H as [Hc Hr].
  rewrite Hc. auto.
Qed.

Lemma trim_allWhiteSpace (s : string) :
  Js.allWhiteSpace s = true -> Js.trim s = "".
Proof.
  intros H. unfold Js.trim. rewrite (trimStart_allWhiteSpace s H). reflexivity.
Qed.

Lemma includes_In (xs : list string) (x : string) :
  Js.includes xs x = true <-> In x xs.
Proof.
  unfold Js.includes. rewrite existsb_exists. split.
  - intros (y & Hy & E). apply String.eqb_eq in E. subst. exact Hy.
  - intros H. exists x. split; [exact H | apply String.eqb_refl].
Qed.

Lemma truthyStr_Some (s : string) :
  s <> "" -> Js.truthyStr (Some s) = true /\ Js.orEmpty (Some s) = s.
Proof.
  intros H. unfold Js.truthyStr, Js.orEmpty.
  destruct (String.eqb_spec s "") as [E|_]; [contradiction | auto].
Qed.

(** ** Schema validation *)

Lemma missingColumns_spec (fs : list string) (col : string) :
  In col (missingColumns fs)
  <-> In col REQUIRED_COLUMNS /\ ~ In col (map Js.toLowerCase fs).
Proof.
  unfold missingColumns. rewrite filter_In, negb_true_iff.
  pose proof (includes_In (map Js.toLowerCase fs) col) as Hinc.
  destruct (Js.includes (map Js.toLowerCase fs) col).
  - split; [intros [_ E]; discriminate E | intros [_ N]; tauto].
  - split; [intros [R _]; split; [exact R|] | tauto].
    intros Hc. apply Hinc in Hc. discriminate Hc.
Qed.

(** C8. A roster whose lower-cased header set lacks a required column is
    refused with the toast that names exactly the missing required columns;
    the upload state is reset, so a later "Process & Upload" returns at once
    without touching the store. The header name,prn,email is reported as
    missing mobile and year. *)
Theorem C8_missing_columns_refused
    (qr : string -> string) (results : ParseResults) :
  (exists col, In col REQUIRED_COLUMNS
               /\ ~ In col (map Js.toLowerCase (fields results))) ->
  let missing := missingColumns (fields results) in
  onParseComplete qr results
    = (resetUpload, [ShowToast (MsgMissingColumns missing) TError])
  /\ (forall col, In col missing
        <-> In col REQUIRED_COLUMNS
            /\ ~ In col (map Js.toLowerCase (fields results)))
  /\ (forall env w,
        processAndUpload env (fst (onParseComplete qr results)) w
          = (Idle, w, []))
  /\ (forall rows,
        onFileReady qr ["name"; "prn"; "email"] rows
          = (resetUpload,
             [ShowToast (MsgMissingColumns ["mobile"; "year"]) TError])).
Proof.
  intros (col & Hreq & Hmiss) missing.
  assert (Hin : In col missing) by (apply missingColumns_spec; auto).
  assert (E : onParseComplete qr results
              = (resetUpload, [ShowToast (MsgMissingColumns missing) TError])).
  { unfold onParseComplete. fold missing.
    destruct missing as [|m ms]; [destruct Hin | reflexivity]. }
  split; [exact E|].
  split; [intros c; apply missingColumns_spec|].
  split; [intros env w; rewrite E; reflexivity|].
  intros rows. reflexivity.
Qed.

Lemma C8_missing_columns_refused_witness :
  onParseComplete demoQr
      (mkResults ["name"; "prn"; "email"] [rawRow "A" "1" "a@x.com" "" ""])
    = (resetUpload, [ShowToast (MsgMissingColumns ["mobile"; "year"]) TError]).
Proof.
  pose proof (C8_missing_columns_refused demoQr
    (mkResults ["name"; "prn"; "email"] [rawRow "A" "1" "a@x.com" "" ""])) as H.
  simpl in H. apply H.
  exists "year". split; [simpl; tauto|].
  simpl. intros [E|[E|[E|[]]]]; discriminate E.
Defined.

(** ** Row filtering and normalisation *)

Lemma keepRow_nonempty (row : RawRow) (n p : string) :
  row !! "name" = Some n -> row !! "prn" = Some p ->
  n <> "" -> p <> "" ->
  keepRow row = true
  /\ name (cleanRow row) = Js.trim n
  /\ prn (cleanRow row) = Js.trim p.
Proof.
  intros Hn Hp Nn Np. unfold keepRow, cleanRow. simpl. rewrite Hn, Hp.
  destruct (truthyStr_Some n Nn) as [Tn On].
  destruct (truthyStr_Some p Np) as [Tp Op].
  rewrite Tn, Tp, On, Op. auto.
Qed.

Lemma lookup_docData_name (qr : gmap string string) (row : Row) (t : Timestamp) :
  resolveDoc t (docData qr row) !! "name" = Some (VStr (name row)).
Proof. reflexivity. Qed.

Lemma lookup_docData_prn (qr : gmap string string) (row : Row) (t : Timestamp) :
  resolveDoc t (docData qr row) !! "prn" = Some (VStr (prn row)).
Proof. reflexivity. Qed.

Lemma lookup_docData_checkedIn (qr : gmap string string) (row : Row) (t : Timestamp) :
  resolveDoc t (docData qr row) !! "checkedIn" = Some (VBool false).
Proof. reflexivity. Qed.

Lemma lookup_docData_checkInTime (qr : gmap string string) (row : Row) (t : Timestamp) :
  resolveDoc t (docData qr row) !! "checkInTime" = Some VNull.
Proof. reflexivity. Qed.

Lemma lookup_docData_eventId (qr : gmap string string) (row : Row) (t : Timestamp) :
  resolveDoc t (docData qr row) !! "eventId" = None.
Proof. reflexivity. Qed.

Lemma settle_None_served (tmo : option N) (r : Reply) (k : nat) :
  settle tmo r k = None -> served r = true.
Proof.
  unfold settle. destruct tmo as [ms|].
  - destruct (latency r <=? ms)%N; [|discriminate].
    destruct (served r); [reflexivity | discriminate].
  - destruct (served r); [reflexivity | discriminate].
Qed.

(** When the duplicate check finds nothing and both requests of the row
    settle in time, the row is appended to the collection. *)
Lemma uploadRow_fresh (env : Env) (qr : gmap string string) (row : Row)
    (c : Counters) (w : World) :
  firstMatch (QPrn (prn row)) (docs w) = None ->
  settle (Some ROW_TIMEOUT_MS) (env (calls w)) (calls w) = None ->
  settle (Some ROW_TIMEOUT_MS) (env (S (calls w))) (S (calls w)) = None ->
  uploadRow env qr row c w
  = (mkCounters (S (uploaded c)) (skipped c) (failed c),
     mkWorld (docs w ++ [(nextId w,
                          resolveDoc (stamp (env (S (calls w)))) (docData qr row))])
             (S (nextId w)) (S (S (calls w))) (S (writes w)),
     []).
Proof.
  intros Hfresh H1 H2. unfold uploadRow, storeGet. rewrite H1, Hfresh.
  unfold storeAdd, bump. cbn [calls docs nextId writes]. rewrite H2.
  rewrite (settle_None_served _ _ _ H2). reflexivity.
Qed.

(** C10, counterexample. A row whose name is only white space and whose
    prn is empty does not survive the filter: it is dropped, and the file
    that holds nothing else is refused as having no valid rows. And of two
    rows that do survive with a white-space-only prn, both trimmed to the
    empty prn, only the first is persisted: the second is skipped as its
    duplicate. *)
Lemma C10_whitespace_name_dropped :
  let row := rawRow "   " "" "a@x.com" "1" "FE" in
  let u := fst (onFileReady demoQr fullHeader
                  [rawRow "A" " " "a@x.com" "1" "FE";
                   rawRow "B" "  " "b@x.com" "2" "SE"]) in
  row !! "name" = Some "   "
  /\ Js.allWhiteSpace "   " = true
  /\ keepRow row = false
  /\ onFileReady demoQr fullHeader [row]
     = (resetUpload, [ShowToast MsgNoValidRows TError])
  /\ map prn (parsedData u) = [""; ""]
  /\ fst (fst (processAndUpload servedEnv u emptyWorld))
     = Finished (mkCounters 1 1 0) 2
  /\ length (docs (snd (fst (processAndUpload servedEnv u emptyWorld)))) = 1.
Proof. vm_compute. repeat split; reflexivity. Qed.

(** C10, amended. The filter tests the raw name and prn for truthiness
    before trimming: a row whose name and prn are both non-empty survives
    it, also when either is only white space, and is kept with both fields
    trimmed, a white-space-only one becoming the empty string. When the
    import reaches the row, no stored record has its trimmed prn and the
    store answers the row's two requests in time, the row is persisted with
    the trimmed values. *)
Theorem C10_nonempty_rows_survive_trimmed
    (env : Env) (qr : string -> string) (row : RawRow) (n p : string) :
  row !! "name" = Some n -> row !! "prn" = Some p ->
  n <> "" -> p <> "" ->
  keepRow row = true
  /\ name (cleanRow row) = Js.trim n
  /\ prn (cleanRow row) = Js.trim p
  /\ (Js.allWhiteSpace n = true -> name (cleanRow row) = "")
  /\ (Js.allWhiteSpace p = true -> prn (cleanRow row) = "")
  /\ (forall results,
        missingColumns (fields results) = [] -> In row (data results) ->
        In (cleanRow row) (parsedData (fst (onParseComplete qr results))))
  /\ (forall m c w,
        firstMatch (QPrn (Js.trim p)) (docs w) = None ->
        settle (Some ROW_TIMEOUT_MS) (env (calls w)) (calls w) = None ->
        settle (Some ROW_TIMEOUT_MS) (env (S (calls w))) (S (calls w)) = None ->
        exists d,
          docs (snd (fst (uploadRow env m (cleanRow row) c w)))
            = docs w ++ [(nextId w, d)]
          /\ d !! "name" = Some (VStr (Js.trim n))
          /\ d !! "prn" = Some (VStr (Js.trim p))).
Proof.
  intros Hn Hp Nn Np.
  destruct (keepRow_nonempty row n p Hn Hp Nn Np) as (K & En & Ep).
  split; [exact K|]. split; [exact En|]. split; [exact Ep|].
  split; [intros W; rewrite En; apply trim_allWhiteSpace, W|].
  split; [intros W; rewrite Ep; apply trim_allWhiteSpace, W|].
  split.
  - intros results Hmiss Hin. unfold onParseComplete. rewrite Hmiss. simpl.
    assert (Hkept : In (cleanRow row)
                       (map cleanRow (List.filter keepRow (data results)))).
    { apply in_map, filter_In. auto. }
    destruct (map cleanRow (List.filter keepRow (data results))) as [|r rs];
      [destruct Hkept | exact Hkept].
  - intros m c w Hfresh H1 H2. rewrite <- Ep in Hfresh.
    rewrite (uploadRow_fresh env m (cleanRow row) c w Hfresh H1 H2). simpl.
    eexists. split; [reflexivity|].
    rewrite lookup_docData_name, lookup_docData_prn, En, Ep. auto.
Qed.

Lemma C10_nonempty_rows_survive_trimmed_witness :
  let row := rawRow "  " "  7 " "a@x.com" "1" "FE" in
  keepRow row = true
  /\ name (cleanRow row) = ""
  /\ prn (cleanRow row) = "7".
Proof.
  pose proof (C10_nonempty_rows_survive_trimmed servedEnv demoQr
                (rawRow "  " "  7 " "a@x.com" "1" "FE") "  " "  7 "
                eq_refl eq_refl) as H.
  destruct H as (K & _ & Ep & Wn & _); [discriminate | discriminate |].
  split; [exact K|]. split; [apply Wn; reflexivity | exact Ep].
Defined.

(** ** Import accounting *)



Lemma storeGet_world (env : Env) (tmo : option N) (q : Query) (w : World) :
  snd (storeGet env tmo q w) = bump w.
Proof. unfold storeGet. destruct (settle _ _ _); reflexivity. Qed.






(** ** Connectivity probe *)

Lemma settle_probe_fails (r : Reply) (k : nat) :
  served r = false \/ (PROBE_TIMEOUT_MS < latency r)%N ->
  exists err, settle (Some PROBE_TIMEOUT_MS) r k = Some err
              /\ ((PROBE_TIMEOUT_MS < latency r)%N ->
                  err = TimedOut PROBE_TIMEOUT_MS).
Proof.
  intros H. unfold settle.
  destruct (N.leb_spec (latency r) PROBE_TIMEOUT_MS) as [Hle|Hgt].
  - destruct H as [Hs|Hl]; [|lia]. rewrite Hs.
    eexists. split; [reflexivity | intros; lia].
  - eexists. split; [reflexivity | reflexivity].
Qed.

(** A reply due exactly when the timer is lets the probe pass. *)
Lemma settle_probe_at_deadline (r : Reply) (k : nat) :
  served r = true -> latency r = PROBE_TIMEOUT_MS ->
  settle (Some PROBE_TIMEOUT_MS) r k = None.
Proof.
  intros Hs Hl. unfold settle. rewrite Hl, Hs. reflexivity.
Qed.

(** C9. The import starts with one read of the collection raced against an
    8000 ms timer. When that read is rejected or has not settled by the time
    the timer fires, that is, takes longer than 8000 ms, the import stops
    there: the error is logged, the connectivity toast is shown, one request
    has been sent and the collection is as it was. *)
Theorem C9_probe_failure_aborts (env : Env) (u : Upload) (w : World) :
  parsedData u <> [] ->
  served (env (calls w)) = false
    \/ (8000 < latency (env (calls w)))%N ->
  exists err w',
    processAndUpload env u w
      = (ConnectivityFailed err, w',
         [ConsoleError LogConnectivity err; ShowToast MsgCannotReach TError])
    /\ docs w' = docs w /\ writes w' = writes w /\ nextId w' = nextId w
    /\ calls w' = S (calls w)
    /\ ((8000 < latency (env (calls w)))%N -> err = TimedOut 8000).
Proof.
  intros Hrows Hfail.
  destruct (settle_probe_fails (env (calls w)) (calls w) Hfail) as (err & E & Ht).
  exists err, (bump w). unfold processAndUpload, storeGet. rewrite E.
  destruct (parsedData u) as [|r rs]; [contradiction|].
  cbn [length Nat.eqb]. repeat split; exact Ht.
Qed.

Lemma C9_probe_failure_aborts_witness :
  exists err w',
    processAndUpload (slowAt 0 9000)
        (fst (onFileReady demoQr fullHeader [rawRow "A" "1" "a@x.com" "1" "FE"]))
        emptyWorld
      = (ConnectivityFailed err, w',
         [ConsoleError LogConnectivity err; ShowToast MsgCannotReach TError])
    /\ docs w' = [] /\ writes w' = 0 /\ nextId w' = 0 /\ calls w' = 1
    /\ ((8000 < 9000)%N -> err = TimedOut 8000).
Proof.
  apply (C9_probe_failure_aborts (slowAt 0 9000)
           (fst (onFileReady demoQr fullHeader
                   [rawRow "A" "1" "a@x.com" "1" "FE"]))
           emptyWorld).
  - vm_compute. discriminate.
  - right. vm_compute. reflexivity.
Defined.

(** ** The record invariant is kept *)

Lemma stateOk_docData (qr : gmap string string) (row : Row) (t : Timestamp) :
  stateOk (resolveDoc t (docData qr row)) = true.
Proof. reflexivity. Qed.

Lemma lookup_patch_checkedIn (t : Timestamp) (d : Doc) :
  (resolveDoc t checkInPatch ∪ d) !! "checkedIn" = Some (VBool true).
Proof. apply lookup_union_Some_l. reflexivity. Qed.

Lemma lookup_patch_checkInTime (t : Timestamp) (d : Doc) :
  (resolveDoc t checkInPatch ∪ d) !! "checkInTime" = Some (VTime t).
Proof. apply lookup_union_Some_l. reflexivity. Qed.

Lemma stateOk_patch (t : Timestamp) (d : Doc) :
  stateOk (resolveDoc t checkInPatch ∪ d) = true.
Proof.
  unfold stateOk.
  rewrite lookup_patch_checkedIn, lookup_patch_checkInTime. reflexivity.
Qed.

Lemma worldOk_storeGet (env : Env) (tmo : option N) (q : Query) (w : World) :
  worldOk w -> worldOk (snd (storeGet env tmo q w)).
Proof. intros H. rewrite storeGet_world. exact H. Qed.

Lemma worldOk_storeAdd (env : Env) (tmo : option N) (qr : gmap string string)
    (row : Row) (w : World) :
  worldOk w -> worldOk (snd (storeAdd env tmo (docData qr row) w)).
Proof.
  intros H. unfold storeAdd. cbn [snd].
  destruct (served (env (calls w))); [|exact H].
  unfold worldOk. cbn [docs]. apply Forall_app. split; [exact H|].
  constructor; [apply stateOk_docData | constructor].
Qed.

Lemma worldOk_patchDoc (id : DocId) (t : Timestamp) (ds : list (DocId * Doc)) :
  Forall (fun p => stateOk (snd p) = true) ds ->
  Forall (fun p => stateOk (snd p) = true)
         (patchDoc id (resolveDoc t checkInPatch) ds).
Proof.
  induction 1 as [|[i d] rest Hd Hrest IH]; simpl; constructor; auto.
  cbn [fst snd]. destruct (Nat.eqb i id); cbn [snd]; [apply stateOk_patch | exact Hd].
Qed.

Lemma worldOk_storeUpdate (env : Env) (id : DocId) (w : World) :
  worldOk w -> worldOk (snd (storeUpdate env id checkInPatch w)).
Proof.
  intros H. unfold storeUpdate.
  destruct (settle None (env (calls w)) (calls w)); [exact H|].
  destruct (lookupDoc id (docs w)); [|exact H].
  unfold worldOk. cbn [snd docs]. apply worldOk_patchDoc, H.
Qed.

Lemma worldOk_uploadRow (env : Env) (qr : gmap string string) (row : Row)
    (c : Counters) (w : World) :
  worldOk w -> worldOk (snd (fst (uploadRow env qr row c w))).
Proof.
  intros H. unfold uploadRow.
  pose proof (worldOk_storeGet env (Some ROW_TIMEOUT_MS) (QPrn (prn row)) w H) as Hg.
  destruct (storeGet env (Some ROW_TIMEOUT_MS) (QPrn (prn row)) w)
    as [[[hit|]|err] w1]; cbn [fst snd] in *; auto.
  pose proof (worldOk_storeAdd env (Some ROW_TIMEOUT_MS) qr row w1 Hg) as Ha.
  destruct (storeAdd env (Some ROW_TIMEOUT_MS) (docData qr row) w1)
    as [[err|] w2]; cbn [fst snd] in *; auto.
Qed.

Lemma worldOk_uploadLoop (env : Env) (qr : gmap string string) (rows : list Row) :
  forall (c : Counters) (w : World),
    worldOk w -> worldOk (snd (fst (uploadLoop env qr rows c w))).
Proof.
  induction rows as [|row rest IH]; intros c w H; simpl; [exact H|].
  pose proof (worldOk_uploadRow env qr row c w H) as Hr.
  destruct (uploadRow env qr row c w) as [[c1 w1] t1]. cbn [fst snd] in Hr.
  specialize (IH c1 w1 Hr).
  destruct (uploadLoop env qr rest c1 w1) as [[c2 w2] t2]. exact IH.
Qed.

Lemma worldOk_processAndUpload (env : Env) (u : Upload) (w : World) :
  worldOk w -> worldOk (snd (fst (processAndUpload env u w))).
Proof.
  intros H. unfold processAndUpload.
  destruct (length (parsedData u) =? 0)%nat; [exact H|].
  pose proof (worldOk_storeGet env (Some PROBE_TIMEOUT_MS) QAll w H) as Hg.
  destruct (storeGet env (Some PROBE_TIMEOUT_MS) QAll w) as [[hit|err] w1];
    cbn [fst snd] in *; [|exact Hg].
  pose proof (worldOk_uploadLoop env (qrDataMap u) (parsedData u)
                (mkCounters 0 0 0) w1 Hg) as Hl.
  destruct (uploadLoop env (qrDataMap u) (parsedData u) (mkCounters 0 0 0) w1)
    as [[c w2] t]. exact Hl.
Qed.

Lemma worldOk_stepAttempt (env : Env) (ev : Events) (a : Attempt) (w : World) :
  worldOk w -> worldOk (snd (fst (stepAttempt env ev a w))).
Proof.
  intros H. destruct a as [prn|id data|]; cbn [stepAttempt].
  - destruct (negb (Js.truthyStr (getSelectedEventId ev))); [exact H|].
    pose proof (worldOk_storeGet env None
      (QPrnEvent prn (Js.orEmpty (getSelectedEventId ev))) w H) as Hg.
    destruct (storeGet env None
      (QPrnEvent prn (Js.orEmpty (getSelectedEventId ev))) w)
      as [[[[id data]|]|err] w1]; cbn [fst snd] in *; auto.
    destruct (truthy (data !! "checkedIn")); exact Hg.
  - pose proof (worldOk_storeUpdate env id w H) as Hu.
    destruct (storeUpdate env id checkInPatch w) as [[err|] w2]; exact Hu.
  - exact H.
Qed.

(** ** The function and its resumable form agree *)

Lemma lookupAndCheckIn_steps (env : Env) (ev : Events) (prn : string) (w : World) :
  runAttempt env 2 ev (Ready prn) w
  = (Settled, fst (lookupAndCheckIn env ev prn w),
     snd (lookupAndCheckIn env ev prn w)).
Proof.
  unfold lookupAndCheckIn. cbn [runAttempt stepAttempt].
  destruct (negb (Js.truthyStr (getSelectedEventId ev))); [reflexivity|].
  destruct (storeGet env None
              (QPrnEvent prn (Js.orEmpty (getSelectedEventId ev))) w)
    as [[[[id data]|]|err] w1]; try reflexivity.
  destruct (truthy (data !! "checkedIn")).
  - cbn [stepAttempt fst snd app]. rewrite !app_nil_r. reflexivity.
  - cbn [stepAttempt].
    destruct (storeUpdate env id checkInPatch w1) as [[err|] w2]; reflexivity.
Qed.

Lemma worldOk_lookupAndCheckIn (env : Env) (ev : Events) (prn : string) (w : World) :
  worldOk w -> worldOk (fst (lookupAndCheckIn env ev prn w)).
Proof.
  intros H.
  pose proof (lookupAndCheckIn_steps env ev prn w) as E.
  cbn [runAttempt] in E.
  pose proof (worldOk_stepAttempt env ev (Ready prn) w H) as H1.
  destruct (stepAttempt env ev (Ready prn) w) as [[a1 w1] t1]. cbn [fst snd] in H1.
  pose proof (worldOk_stepAttempt env ev a1 w1 H1) as H2.
  destruct (stepAttempt env ev a1 w1) as [[a2 w2] t2]. cbn [fst snd] in H2.
  inversion E as [[Ea Ew Et]]. rewrite <- Ew. exact H2.
Qed.

Lemma worldOk_interleave (env : Env) (ev : Events) (sched : list Who) :
  forall r : Race,
    worldOk (shared r) -> worldOk (shared (interleave env ev sched r)).
Proof.
  induction sched as [|who rest IH]; intros r H; [exact H|].
  cbn [interleave]. apply IH. unfold stepRace.
  destruct who.
  - pose proof (worldOk_stepAttempt env ev (attempt1 r) (shared r) H) as Hs.
    destruct (stepAttempt env ev (attempt1 r) (shared r)) as [[a w] t]. exact Hs.
  - pose proof (worldOk_stepAttempt env ev (attempt2 r) (shared r) H) as Hs.
    destruct (stepAttempt env ev (attempt2 r) (shared r)) as [[a w] t]. exact Hs.
Qed.

(** The update is all or nothing: both fields on the document, or the
    collection as it was. *)
Lemma storeUpdate_all_or_nothing (env : Env) (id : DocId) (w : World) :
  let w' := snd (storeUpdate env id checkInPatch w) in
  (docs w' = docs w /\ writes w' = writes w)
  \/ (docs w' = patchDoc id (resolveDoc (stamp (env (calls w))) checkInPatch)
                         (docs w)
      /\ writes w' = S (writes w)
      /\ fst (storeUpdate env id checkInPatch w) = None).
Proof.
  unfold storeUpdate.
  destruct (settle None (env (calls w)) (calls w)); [left; split; reflexivity|].
  destruct (lookupDoc id (docs w)); [right | left]; repeat split; reflexivity.
Qed.

(** C7. Every record of the collection keeps [checkedIn] and [checkInTime]
    in step: true with a timestamp, or false with null. The empty collection
    does; the importer only adds records with checkedIn false and
    checkInTime null; the check-in transition writes checkedIn true together
    with the server's timestamp in the one update it sends, and that update
    either applies both fields or leaves the collection as it was. So the
    whole import, the whole check-in, every resumption of a check-in attempt
    and every interleaving of two attempts leave the invariant in place. *)
Theorem C7_state_invariant_kept (env : Env) (ev : Events) (w : World) :
  worldOk w ->
  worldOk emptyWorld
  /\ (forall u, worldOk (snd (fst (processAndUpload env u w))))
  /\ (forall prn, worldOk (fst (lookupAndCheckIn env ev prn w)))
  /\ (forall a, worldOk (snd (fst (stepAttempt env ev a w))))
  /\ (forall sched prn,
        worldOk (shared (interleave env ev sched (startRace prn w))))
  /\ (forall qr row t,
        resolveDoc t (docData qr row) !! "checkedIn" = Some (VBool false)
        /\ resolveDoc t (docData qr row) !! "checkInTime" = Some VNull)
  /\ (forall d t,
        (resolveDoc t checkInPatch ∪ d) !! "checkedIn" = Some (VBool true)
        /\ (resolveDoc t checkInPatch ∪ d) !! "checkInTime" = Some (VTime t))
  /\ (forall id,
        let w' := snd (storeUpdate env id checkInPatch w) in
        (docs w' = docs w /\ writes w' = writes w)
        \/ (docs w' = patchDoc id
                        (resolveDoc (stamp (env (calls w))) checkInPatch)
                        (docs w)
            /\ writes w' = S (writes w)
            /\ fst (storeUpdate env id checkInPatch w) = None)).
Proof.
  intros H.
  split; [constructor|].
  split; [intros u; apply worldOk_processAndUpload, H|].
  split; [intros prn; apply worldOk_lookupAndCheckIn, H|].
  split; [intros a; apply worldOk_stepAttempt, H|].
  split; [intros sched prn; apply worldOk_interleave, H|].
  split.
  { intros qr row t. split;
      [apply lookup_docData_checkedIn | apply lookup_docData_checkInTime]. }
  split.
  { intros d t. split;
      [apply lookup_patch_checkedIn | apply lookup_patch_checkInTime]. }
  intros id. apply storeUpdate_all_or_nothing.
Qed.

Lemma C7_state_invariant_kept_witness :
  let w := mkWorld [(0, attendee "E1" "1" "A" None);
                    (1, attendee "E1" "2" "B" (Some 5))] 2 0 0 in
  worldOk w
  /\ worldOk (fst (lookupAndCheckIn servedEnv festival "1" w))
  /\ (snd <$> docs (fst (lookupAndCheckIn servedEnv festival "1" w)))
       !! 0 ≫= (fun d => d !! "checkInTime") = Some (VTime 101).
Proof.
  assert (H : worldOk (mkWorld [(0, attendee "E1" "1" "A" None);
                                (1, attendee "E1" "2" "B" (Some 5))] 2 0 0)).
  { repeat constructor. }
  split; [exact H|]. split.
  - apply (C7_state_invariant_kept servedEnv festival _ H).
  - vm_compute. reflexivity.
Defined.

(** ** Resolving a code *)

Lemma guard_passes (ev : Events) (e : string) :
  selectedEventId ev = Some e -> e <> "" ->
  negb (Js.truthyStr (getSelectedEventId ev)) = false
  /\ Js.orEmpty (getSelectedEventId ev) = e.
Proof.
  intros Hsel Hne. unfold getSelectedEventId. rewrite Hsel.
  destruct (truthyStr_Some e Hne) as [T O]. rewrite T, O. auto.
Qed.

Lemma settle_bare (r : Reply) (k : nat) :
  settle None r k = if served r then None else Some (Rejected k).
Proof. reflexivity. Qed.

Lemma checkInTimeOf_time (d : Doc) (t : Timestamp) :
  d !! "checkInTime" = Some (VTime t) -> checkInTimeOf d = inl (Some t).
Proof. intros H. unfold checkInTimeOf. rewrite H. reflexivity. Qed.

(** A found record that is already checked in: one read, no write. *)
Lemma lookup_already (env : Env) (ev : Events) (e prn : string) (w : World)
    (id : DocId) (d : Doc) (t : Timestamp) :
  selectedEventId ev = Some e -> e <> "" ->
  served (env (calls w)) = true ->
  firstMatch (QPrnEvent prn e) (docs w) = Some (id, d) ->
  d !! "checkedIn" = Some (VBool true) ->
  d !! "checkInTime" = Some (VTime t) ->
  lookupAndCheckIn env ev prn w = (bump w, alreadyTrace d t).
Proof.
  intros Hsel Hne Hs Hfind Hc Ht.
  destruct (guard_passes ev e Hsel Hne) as [G O].
  unfold lookupAndCheckIn, storeGet. rewrite G, O, settle_bare, Hs, Hfind, Hc.
  cbn [truthy]. unfold onAlready. rewrite (checkInTimeOf_time d t Ht).
  reflexivity.
Qed.

(** C5. A record found checked in stays as it is however often its code is
    resolved: each resolution sends one read and no write, shows the
    already-checked-in panel with the stored check-in time, and leaves the
    collection, hence that time, unchanged. *)
Theorem C5_already_checked_in_idempotent
    (env : Env) (ev : Events) (e prn : string) (id : DocId) (d : Doc)
    (t : Timestamp) (n : nat) :
  forall w : World,
    selectedEventId ev = Some e -> e <> "" ->
    (forall k, served (env k) = true) ->
    firstMatch (QPrnEvent prn e) (docs w) = Some (id, d) ->
    d !! "checkedIn" = Some (VBool true) ->
    d !! "checkInTime" = Some (VTime t) ->
    docs (fst (resolveTimes env n ev prn w)) = docs w
    /\ writes (fst (resolveTimes env n ev prn w)) = writes w
    /\ calls (fst (resolveTimes env n ev prn w)) = n + calls w
    /\ length (snd (resolveTimes env n ev prn w)) = n
    /\ Forall (fun tr => tr = alreadyTrace d t
                         /\ shown tr = Some Already)
              (snd (resolveTimes env n ev prn w)).
Proof.
  induction n as [|k IH]; intros w Hsel Hne Hs Hfind Hc Ht.
  - cbn. repeat split; constructor.
  - cbn [resolveTimes].
    rewrite (lookup_already env ev e prn w id d t Hsel Hne (Hs _) Hfind Hc Ht).
    specialize (IH (bump w) Hsel Hne Hs Hfind Hc Ht).
    destruct (resolveTimes env k ev prn (bump w)) as [w2 ts].
    cbn [fst snd bump docs writes calls length] in *.
    destruct IH as (Hd & Hw & Hk & Hl & Hall).
    repeat split; try assumption; try lia.
    constructor; [split; reflexivity | exact Hall].
Qed.

Lemma C5_already_checked_in_idempotent_witness :
  let w := mkWorld [(0, attendee "E1" "1" "A" (Some 5))] 1 0 0 in
  docs (fst (resolveTimes servedEnv 3 festival "1" w)) = docs w
  /\ writes (fst (resolveTimes servedEnv 3 festival "1" w)) = 0
  /\ calls (fst (resolveTimes servedEnv 3 festival "1" w)) = 3
  /\ length (snd (resolveTimes servedEnv 3 festival "1" w)) = 3
  /\ Forall (fun tr => tr = alreadyTrace (attendee "E1" "1" "A" (Some 5)) 5
                       /\ shown tr = Some Already)
            (snd (resolveTimes servedEnv 3 festival "1" w)).
Proof.
  apply (C5_already_checked_in_idempotent servedEnv festival "E1" "1" 0
           (attendee "E1" "1" "A" (Some 5)) 5 3
           (mkWorld [(0, attendee "E1" "1" "A" (Some 5))] 1 0 0)).
  - reflexivity.
  - discriminate.
  - intros k. reflexivity.
  - vm_compute. reflexivity.
  - vm_compute. reflexivity.
  - vm_compute. reflexivity.
Defined.

(** ** Store failures during a check-in *)

Lemma firstMatch_lookupDoc (q : Query) (ds : list (DocId * Doc))
    (id : DocId) (d : Doc) :
  firstMatch q ds = Some (id, d) -> is_Some (lookupDoc id ds).
Proof.
  intros H. apply find_some in H as [Hin _].
  unfold lookupDoc.
  destruct (find (fun p => Nat.eqb (fst p) id) ds) as [p|] eqn:E.
  - eexists. reflexivity.
  - exfalso. pose proof (find_none _ _ E _ Hin) as Hn.
    cbn [fst] in Hn. rewrite Nat.eqb_refl in Hn. discriminate Hn.
Qed.

(** C3, counterexample. A rejected lookup, and likewise a rejected
    update, leaves the same result panel on screen as a code that matches
    no record: the not-found panel. *)
Lemma C3_store_error_panel_is_not_found :
  let w := mkWorld [(0, attendee "E1" "1" "A" None)] 1 0 0 in
  shown (snd (lookupAndCheckIn (rejectAt 0) festival "1" w)) = Some NotFound
  /\ shown (snd (lookupAndCheckIn servedEnv festival "999" w)) = Some NotFound
  /\ shown (snd (lookupAndCheckIn (rejectAt 1) festival "1" w)) = Some NotFound.
Proof. vm_compute. repeat split; reflexivity. Qed.

(** C3, amended. When the lookup or the update of a check-in is rejected
    by the store, the cause is written to the console, the result panel is
    the not-found panel, the one also shown for an unknown code, and the
    toast is the check-in error toast, which is not the toast of an unknown
    code; nothing is written to the collection. *)
Theorem C3_store_error_logged_and_toasted
    (env : Env) (ev : Events) (e prn : string) (w : World) :
  selectedEventId ev = Some e -> e <> "" ->
  served (env (calls w)) = false
  \/ (served (env (calls w)) = true
      /\ served (env (S (calls w))) = false
      /\ exists id d, firstMatch (QPrnEvent prn e) (docs w) = Some (id, d)
                      /\ truthy (d !! "checkedIn") = false) ->
  exists err,
    snd (lookupAndCheckIn env ev prn w) = errorTrace err
    /\ (err = Rejected (calls w) \/ err = Rejected (S (calls w)))
    /\ logged (snd (lookupAndCheckIn env ev prn w)) = [(LogCheckIn, err)]
    /\ shown (snd (lookupAndCheckIn env ev prn w)) = Some NotFound
    /\ toasts (snd (lookupAndCheckIn env ev prn w)) = [(MsgCheckInError, TError)]
    /\ MsgCheckInError <> MsgNoRegistration
    /\ docs (fst (lookupAndCheckIn env ev prn w)) = docs w
    /\ writes (fst (lookupAndCheckIn env ev prn w)) = writes w.
Proof.
  intros Hsel Hne Hfail.
  destruct (guard_passes ev e Hsel Hne) as [G O].
  unfold lookupAndCheckIn, storeGet. rewrite G, O, settle_bare.
  destruct Hfail as [Hs | (Hs & Hs2 & id & d & Hfind & Hc)]; rewrite Hs.
  - exists (Rejected (calls w)). cbn [fst snd].
    repeat split; auto; discriminate.
  - rewrite Hfind, Hc. unfold storeUpdate. cbn [bump calls docs].
    rewrite settle_bare, Hs2.
    exists (Rejected (S (calls w))). cbn [fst snd].
    repeat split; auto; discriminate.
Qed.

Lemma C3_store_error_logged_and_toasted_witness :
  let w := mkWorld [(0, attendee "E1" "1" "A" None)] 1 0 0 in
  exists err,
    snd (lookupAndCheckIn (rejectAt 1) festival "1" w) = errorTrace err
    /\ (err = Rejected 0 \/ err = Rejected 1)
    /\ logged (snd (lookupAndCheckIn (rejectAt 1) festival "1" w))
       = [(LogCheckIn, err)]
    /\ shown (snd (lookupAndCheckIn (rejectAt 1) festival "1" w)) = Some NotFound
    /\ toasts (snd (lookupAndCheckIn (rejectAt 1) festival "1" w))
       = [(MsgCheckInError, TError)]
    /\ MsgCheckInError <> MsgNoRegistration
    /\ docs (fst (lookupAndCheckIn (rejectAt 1) festival "1" w)) = docs w
    /\ writes (fst (lookupAndCheckIn (rejectAt 1) festival "1" w)) = 0.
Proof.
  apply (C3_store_error_logged_and_toasted (rejectAt 1) festival "E1" "1"
           (mkWorld [(0, attendee "E1" "1" "A" None)] 1 0 0)).
  - reflexivity.
  - discriminate.
  - right. split; [reflexivity|]. split; [reflexivity|].
    exists 0, (attendee "E1" "1" "A" None). split; vm_compute; reflexivity.
Defined.

(** ** Two clients resolving the same code *)

Lemma matches_patch (prn e : string) (t : Timestamp) (d : Doc) :
  matches (QPrnEvent prn e) (resolveDoc t checkInPatch ∪ d)
  = matches (QPrnEvent prn e) d.
Proof.
  unfold matches, fieldIs.
  rewrite !(lookup_union_r (resolveDoc t checkInPatch) d) by reflexivity.
  reflexivity.
Qed.

(** The update leaves the first match of a (prn, eventId) query where it
    was and patches it when it is the updated document. *)
Lemma firstMatch_patchDoc (prn e : string) (t : Timestamp) (id : DocId)
    (ds : list (DocId * Doc)) (d : Doc) :
  firstMatch (QPrnEvent prn e) ds = Some (id, d) ->
  firstMatch (QPrnEvent prn e) (patchDoc id (resolveDoc t checkInPatch) ds)
  = Some (id, resolveDoc t checkInPatch ∪ d).
Proof.
  unfold firstMatch, patchDoc.
  induction ds as [|[i x] rest IH]; intros H; [discriminate|].
  cbn [map find fst snd] in *.
  destruct (Nat.eqb i id) eqn:Ei; cbn [snd].
  - rewrite matches_patch.
    destruct (matches (QPrnEvent prn e) x).
    + inversion H; subst. reflexivity.
    + apply IH, H.
  - destruct (matches (QPrnEvent prn e) x).
    + inversion H; subst. rewrite Nat.eqb_refl in Ei. discriminate Ei.
    + apply IH, H.
Qed.

Lemma lookupDoc_patchDoc (id : DocId) (patch : Doc) (ds : list (DocId * Doc)) :
  is_Some (lookupDoc id ds) -> is_Some (lookupDoc id (patchDoc id patch ds)).
Proof.
  unfold lookupDoc, patchDoc.
  induction ds as [|[i x] rest IH]; cbn [map find fst snd]; intros H.
  - destruct H as [? H]. discriminate H.
  - destruct (Nat.eqb i id) eqn:Ei; cbn [fst].
    + rewrite Ei. eexists. reflexivity.
    + rewrite Ei. apply IH, H.
Qed.

Section Race.

Variable env : Env.
Variables (ev : Events) (e prn : string).

Hypothesis selected : selectedEventId ev = Some e.
Hypothesis selected_nonempty : e <> "".
Hypothesis all_served : forall k, served (env k) = true.

(** Reading a record that is not checked in suspends the attempt. *)
Lemma step_read_unchecked (w : World) (id : DocId) (d : Doc) :
  firstMatch (QPrnEvent prn e) (docs w) = Some (id, d) ->
  truthy (d !! "checkedIn") = false ->
  stepAttempt env ev (Ready prn) w
  = (AwaitingUpdate id d, bump w, [ShowState Loading]).
Proof.
  intros Hfind Hc.
  destruct (guard_passes ev e selected selected_nonempty) as [G O].
  cbn [stepAttempt]. unfold storeGet.
  rewrite G, O, settle_bare, all_served, Hfind, Hc. reflexivity.
Qed.

(** Reading a record that is checked in settles the attempt. *)
Lemma step_read_checked (w : World) (id : DocId) (d : Doc) (t : Timestamp) :
  firstMatch (QPrnEvent prn e) (docs w) = Some (id, d) ->
  d !! "checkedIn" = Some (VBool true) ->
  d !! "checkInTime" = Some (VTime t) ->
  stepAttempt env ev (Ready prn) w = (Settled, bump w, alreadyTrace d t).
Proof.
  intros Hfind Hc Ht.
  destruct (guard_passes ev e selected selected_nonempty) as [G O].
  cbn [stepAttempt]. unfold storeGet.
  rewrite G, O, settle_bare, all_served, Hfind, Hc. cbn [truthy].
  unfold onAlready. rewrite (checkInTimeOf_time d t Ht). reflexivity.
Qed.

(** The suspended attempt writes without looking again. *)
Lemma step_update (w : World) (id : DocId) (d : Doc) :
  is_Some (lookupDoc id (docs w)) ->
  stepAttempt env ev (AwaitingUpdate id d) w
  = (Settled,
     mkWorld (patchDoc id (resolveDoc (stamp (env (calls w))) checkInPatch)
                       (docs w))
             (nextId w) (S (calls w)) (S (writes w)),
     onSuccess d).
Proof.
  intros [x Hx]. cbn [stepAttempt]. unfold storeUpdate.
  rewrite settle_bare, all_served, Hx. reflexivity.
Qed.

(** C2, amended. Two attempts on the same record that is not checked in
    each perform a read and then a separate update that does not look at
    the record again. Over the six interleavings of their reads and
    updates: when both reads come before either update, both attempts
    report success and two writes reach the record; when one attempt
    finishes before the other reads, the first reports success and the
    second that the record is already checked in, with one write. Either
    way both attempts settle and the record ends checked in. *)
Theorem C2_interleaved_check_ins
    (w : World) (id : DocId) (d : Doc) (sched : list Who) :
  firstMatch (QPrnEvent prn e) (docs w) = Some (id, d) ->
  truthy (d !! "checkedIn") = false ->
  length sched = 4 -> turns First sched = 2 ->
  let r := interleave env ev sched (startRace prn w) in
  attempt1 r = Settled /\ attempt2 r = Settled
  /\ (exists d', firstMatch (QPrnEvent prn e) (docs (shared r)) = Some (id, d')
                 /\ d' !! "checkedIn" = Some (VBool true))
  /\ (if readsFirst sched
      then shown (trace1 r) = Some Success /\ shown (trace2 r) = Some Success
           /\ writes (shared r) = 2 + writes w
      else ((shown (trace1 r) = Some Success /\ shown (trace2 r) = Some Already)
            \/ (shown (trace1 r) = Some Already /\ shown (trace2 r) = Some Success))
           /\ writes (shared r) = 1 + writes w).
Proof.
  intros F0 Hc Hlen Hturns.
  pose proof (firstMatch_lookupDoc _ _ _ _ F0) as L0.
  destruct sched as [|a [|b [|c [|z [|? ?]]]]]; try discriminate Hlen.
  set (P1 := resolveDoc (stamp (env (S (calls w)))) checkInPatch).
  set (P2 := resolveDoc (stamp (env (S (S (calls w))))) checkInPatch).
  set (P3 := resolveDoc (stamp (env (S (S (S (calls w)))))) checkInPatch).
  pose proof (firstMatch_patchDoc prn e (stamp (env (S (calls w)))) id _ _ F0) as F1.
  pose proof (firstMatch_patchDoc prn e (stamp (env (S (S (calls w))))) id _ _ F0) as F2.
  pose proof (firstMatch_patchDoc prn e (stamp (env (S (S (S (calls w)))))) id _ _ F2) as F3.
  destruct a, b, c, z; try discriminate Hturns; cbv zeta; race_beta.
  - (* First reads and writes, then Second reads *)
    rewrite (step_read_unchecked w id d F0 Hc). race_beta.
    rewrite (step_update (bump w) id d L0). race_beta.
    erewrite step_read_checked;
      [ | exact F1 | apply lookup_patch_checkedIn | apply lookup_patch_checkInTime ].
    race_beta. cbn [stepAttempt].
    split; [reflexivity|]. split; [reflexivity|].
    split; [eexists; split; [exact F1 | apply lookup_patch_checkedIn]|].
    cbn [readsFirst who_eqb negb]. split; [left; split; reflexivity | reflexivity].
  - (* both read, First writes, Second writes *)
    rewrite (step_read_unchecked w id d F0 Hc). race_beta.
    rewrite (step_read_unchecked (bump w) id d F0 Hc). race_beta.
    rewrite (step_update (bump (bump w)) id d L0). race_beta.
    erewrite step_update; [ | exact (firstMatch_lookupDoc _ _ _ _ F2) ].
    split; [reflexivity|]. split; [reflexivity|].
    split; [eexists; split; [exact F3 | apply lookup_patch_checkedIn]|].
    cbn [readsFirst who_eqb negb]. repeat split; reflexivity.
  - (* both read, Second writes, First writes *)
    rewrite (step_read_unchecked w id d F0 Hc). race_beta.
    rewrite (step_read_unchecked (bump w) id d F0 Hc). race_beta.
    rewrite (step_update (bump (bump w)) id d L0). race_beta.
    erewrite step_update; [ | exact (firstMatch_lookupDoc _ _ _ _ F2) ].
    split; [reflexivity|]. split; [reflexivity|].
    split; [eexists; split; [exact F3 | apply lookup_patch_checkedIn]|].
    cbn [readsFirst who_eqb negb]. repeat split; reflexivity.
  - rewrite (step_read_unchecked w id d F0 Hc). race_beta.
    rewrite (step_read_unchecked (bump w) id d F0 Hc). race_beta.
    rewrite (step_update (bump (bump w)) id d L0). race_beta.
    erewrite step_update; [ | exact (firstMatch_lookupDoc _ _ _ _ F2) ].
    split; [reflexivity|]. split; [reflexivity|].
    split; [eexists; split; [exact F3 | apply lookup_patch_checkedIn]|].
    cbn [readsFirst who_eqb negb]. repeat split; reflexivity.
  - rewrite (step_read_unchecked w id d F0 Hc). race_beta.
    rewrite (step_read_unchecked (bump w) id d F0 Hc). race_beta.
    rewrite (step_update (bump (bump w)) id d L0). race_beta.
    erewrite step_update; [ | exact (firstMatch_lookupDoc _ _ _ _ F2) ].
    split; [reflexivity|]. split; [reflexivity|].
    split; [eexists; split; [exact F3 | apply lookup_patch_checkedIn]|].
    cbn [readsFirst who_eqb negb]. repeat split; reflexivity.
  - (* Second reads and writes, then First reads *)
    rewrite (step_read_unchecked w id d F0 Hc). race_beta.
    rewrite (step_update (bump w) id d L0). race_beta.
    erewrite step_read_checked;
      [ | exact F1 | apply lookup_patch_checkedIn | apply lookup_patch_checkInTime ].
    race_beta. cbn [stepAttempt].
    split; [reflexivity|]. split; [reflexivity|].
    split; [eexists; split; [exact F1 | apply lookup_patch_checkedIn]|].
    cbn [readsFirst who_eqb negb]. split; [right; split; reflexivity | reflexivity].
Qed.

End Race.

Lemma C2_interleaved_check_ins_witness :
  let w := mkWorld [(0, attendee "E1" "1" "A" None)] 1 0 0 in
  let r := interleave servedEnv festival [Second; Second; First; First]
             (startRace "1" w) in
  shown (trace1 r) = Some Already /\ shown (trace2 r) = Some Success
  /\ writes (shared r) = 1.
Proof.
  destruct (C2_interleaved_check_ins servedEnv festival "E1" "1"
              eq_refl ltac:(discriminate) (fun k => eq_refl)
              (mkWorld [(0, attendee "E1" "1" "A" None)] 1 0 0)
              0 (attendee "E1" "1" "A" None)
              [Second; Second; First; First]
              eq_refl eq_refl eq_refl eq_refl)
    as (_ & _ & _ & [[[H1 H2]|[H1 H2]] Hw]).
  - vm_compute in H1. discriminate H1.
  - cbv zeta. split; [exact H1|]. split; [exact H2 | exact Hw].
Defined.

(** C2, counterexample. When both clients read the record before either
    updates it, each finds checkedIn false, each sends its update, and both
    report success. *)
Lemma C2_both_attempts_succeed :
  let w := mkWorld [(0, attendee "E1" "1" "A" None)] 1 0 0 in
  let r := interleave servedEnv festival [First; Second; First; Second]
             (startRace "1" w) in
  attempt1 r = Settled /\ attempt2 r = Settled
  /\ shown (trace1 r) = Some Success /\ shown (trace2 r) = Some Success
  /\ writes (shared r) = 2.
Proof. vm_compute. repeat split; reflexivity. Qed.

(** ** Event scope of the importer *)

(** The resolver stops at its guard when no event is selected. *)
Lemma lookupAndCheckIn_no_event (env : Env) (prn : string) (w : World) :
  lookupAndCheckIn env noEvent prn w
  = (w, [ShowState Loading; ShowToast MsgSelectEventFirst TWarning;
         ShowState Default]).
Proof. reflexivity. Qed.

(** C1. The importer at work with event E1 selected: a roster row whose
    prn is held by a record of another event is skipped as a duplicate; a
    row imported into the empty collection is stored without an eventId
    field, as is every document the importer builds; and resolving that prn
    under E1 right after the import finds no record. *)
Theorem C1_importer_ignores_event :
  let u := fst (onFileReady demoQr fullHeader
                  [rawRow "A" "1" "a@x.com" "1" "FE"]) in
  let other := mkWorld [(0, attendee "E2" "1" "Z" None)] 1 0 0 in
  let imported :=
    snd (fst (onProcessClick servedEnv (mkApp festival u emptyWorld))) in
  getSelectedEventId festival = Some "E1"
  /\ fst (fst (onProcessClick servedEnv (mkApp festival u other)))
     = Finished (mkCounters 0 1 0) 1
  /\ map (fun p => snd p !! "eventId") (docs (world imported)) = [None]
  /\ map (fun p => snd p !! "prn") (docs (world imported)) = [Some (VStr "1")]
  /\ (forall qr row t, resolveDoc t (docData qr row) !! "eventId" = None)
  /\ snd (onManualCheckInClick servedEnv "1" imported)
     = [ShowState Loading; ShowState NotFound;
        ShowToast MsgNoRegistration TError].
Proof.
  cbv zeta.
  split; [reflexivity|]. split; [vm_compute; reflexivity|].
  split; [vm_compute; reflexivity|]. split; [vm_compute; reflexivity|].
  split; [intros qr row t; reflexivity|].
  vm_compute. reflexivity.
Qed.

(** C4. With no event selected the resolver stops at its guard for every
    code and leaves the store untouched, but the importer has no such
    guard: a click on "Process & Upload" sends the probe, the duplicate
    check and the write, and the row is stored. *)
Theorem C4_importer_runs_without_event :
  let u := fst (onFileReady demoQr fullHeader
                  [rawRow "A" "1" "a@x.com" "1" "FE"]) in
  let app := mkApp noEvent u emptyWorld in
  getSelectedEventId (events app) = None
  /\ (forall env prn w,
        lookupAndCheckIn env noEvent prn w
        = (w, [ShowState Loading; ShowToast MsgSelectEventFirst TWarning;
               ShowState Default]))
  /\ fst (fst (onProcessClick servedEnv app)) = Finished (mkCounters 1 0 0) 1
  /\ calls (world (snd (fst (onProcessClick servedEnv app)))) = 3
  /\ writes (world (snd (fst (onProcessClick servedEnv app)))) = 1
  /\ length (docs (world (snd (fst (onProcessClick servedEnv app))))) = 1.
Proof.
  cbv zeta. split; [reflexivity|].
  split; [intros env prn w; reflexivity|].
  repeat split; vm_compute; reflexivity.
Qed.

(** * Further properties of the modelled code *)

(** ** Manual entry *)

Lemma allWhiteSpace_revOnto (s acc : string) :
  Js.allWhiteSpace (Js.revOnto s acc)
  = Js.allWhiteSpace s && Js.allWhiteSpace acc.
Proof.
  revert acc. induction s as [|c r IH]; intros acc; simpl; [reflexivity|].
  rewrite IH. simpl.
  destruct (Js.isWhiteSpace c), (Js.allWhiteSpace r); reflexivity.
Qed.

Lemma allWhiteSpace_trimStart (s : string) :
  Js.allWhiteSpace (Js.trimStart s) = Js.allWhiteSpace s.
Proof.
  induction s as [|c r IH]; simpl; [reflexivity|].
  destruct (Js.isWhiteSpace c) eqn:E; simpl; [exact IH | rewrite E; reflexivity].
Qed.

Lemma allWhiteSpace_trim (s : string) :
  Js.allWhiteSpace (Js.trim s) = Js.allWhiteSpace s.
Proof.
  unfold Js.trim, Js.trimEnd, Js.reverse.
  rewrite allWhiteSpace_revOnto, allWhiteSpace_trimStart,
          allWhiteSpace_revOnto, allWhiteSpace_trimStart.
  simpl. rewrite !andb_true_r. reflexivity.
Qed.

Lemma trim_nonblank (s : string) :
  Js.allWhiteSpace s = false -> Js.trim s <> "".
Proof.
  intros H E. rewrite <- allWhiteSpace_trim, E in H. discriminate H.
Qed.

(** X1. The manual check-in reaches the store exactly when the typed text
    holds a character that is not white space: blank input only raises the
    "enter a PRN" toast, whatever event is selected; any other input is
    resolved as its trimmed text. *)
Theorem manual_check_in_blank_or_trimmed
    (env : Env) (ev : Events) (text : string) (w : World) :
  (Js.allWhiteSpace text = true ->
     handleManualCheckIn env ev text w = (w, [ShowToast MsgEnterPrn TWarning]))
  /\ (Js.allWhiteSpace text = false ->
     Js.trim text <> ""
     /\ handleManualCheckIn env ev text w
        = lookupAndCheckIn env ev (Js.trim text) w).
Proof.
  split; intros H; unfold handleManualCheckIn.
  - rewrite (trim_allWhiteSpace text H). reflexivity.
  - pose proof (trim_nonblank text H) as Hne. split; [exact Hne|].
    destruct (truthyStr_Some (Js.trim text) Hne) as [T _]. rewrite T.
    reflexivity.
Qed.

Lemma manual_check_in_blank_or_trimmed_witness :
  handleManualCheckIn servedEnv festival "  " emptyWorld
    = (emptyWorld, [ShowToast MsgEnterPrn TWarning])
  /\ handleManualCheckIn servedEnv festival " 7 " emptyWorld
     = lookupAndCheckIn servedEnv festival "7" emptyWorld.
Proof.
  destruct (manual_check_in_blank_or_trimmed servedEnv festival "  " emptyWorld)
    as [Hblank _].
  destruct (manual_check_in_blank_or_trimmed servedEnv festival " 7 " emptyWorld)
    as [_ Htext].
  split; [apply Hblank; reflexivity | apply Htext; reflexivity].
Defined.

(** ** Resolving a code: scope and frame *)

Lemma firstMatch_none (q : Query) (ds : list (DocId * Doc)) :
  Forall (fun x => matches q (snd x) = false) ds -> firstMatch q ds = None.
Proof.
  unfold firstMatch. induction 1 as [|x rest Hx _ IH]; simpl; [reflexivity|].
  rewrite Hx. exact IH.
Qed.

(** X2. A code is looked up inside the selected event only: when no record
    carries both the scanned prn and the selected event's id (records of
    other events with that prn do not count) the outcome is the not-found
    panel with its toast, after one read and no write. *)
Theorem unknown_code_in_event_not_found
    (env : Env) (ev : Events) (e p : string) (w : World) :
  selectedEventId ev = Some e -> e <> "" ->
  served (env (calls w)) = true ->
  Forall (fun x => ~ (snd x !! "prn" = Some (VStr p)
                      /\ snd x !! "eventId" = Some (VStr e))) (docs w) ->
  lookupAndCheckIn env ev p w
  = (bump w, [ShowState Loading; ShowState NotFound;
              ShowToast MsgNoRegistration TError]).
Proof.
  intros Hsel Hne Hs Hnone.
  destruct (guard_passes ev e Hsel Hne) as [G O].
  unfold lookupAndCheckIn, storeGet. rewrite G, O, settle_bare, Hs.
  rewrite firstMatch_none; [reflexivity|].
  eapply Forall_impl; [exact Hnone|]. intros [i d] Hd. cbn [snd matches] in *.
  unfold fieldIs.
  destruct (bool_decide (d !! "prn" = Some (VStr p))) eqn:E1; [|reflexivity].
  destruct (bool_decide (d !! "eventId" = Some (VStr e))) eqn:E2; [|reflexivity].
  apply bool_decide_eq_true in E1. apply bool_decide_eq_true in E2.
  exfalso. apply Hd. split; assumption.
Qed.

Lemma unknown_code_in_event_not_found_witness :
  let w := mkWorld [(0, attendee "E2" "1" "Z" None)] 1 0 0 in
  lookupAndCheckIn servedEnv festival "1" w
  = (bump w, [ShowState Loading; ShowState NotFound;
              ShowToast MsgNoRegistration TError]).
Proof.
  apply (unknown_code_in_event_not_found servedEnv festival "E1" "1"
           (mkWorld [(0, attendee "E2" "1" "Z" None)] 1 0 0)).
  - reflexivity.
  - discriminate.
  - reflexivity.
  - constructor; [|constructor]. intros [_ H]. vm_compute in H. discriminate H.
Defined.

(** X3. Check-in then rescan. Resolving the code of a record that is not
    checked in shows the success panel with the attendee as read; resolving
    it again shows the already-checked-in panel with the server time of the
    first resolution's update. Three requests and one write in all. *)
Theorem check_in_then_rescan
    (env : Env) (ev : Events) (e p : string) (w : World) (id : DocId) (d : Doc) :
  selectedEventId ev = Some e -> e <> "" ->
  (forall k, served (env k) = true) ->
  firstMatch (QPrnEvent p e) (docs w) = Some (id, d) ->
  truthy (d !! "checkedIn") = false ->
  let first := lookupAndCheckIn env ev p w in
  let second := lookupAndCheckIn env ev p (fst first) in
  let stamped := resolveDoc (stamp (env (S (calls w)))) checkInPatch ∪ d in
  snd first = ShowState Loading :: onSuccess d
  /\ shown (snd first) = Some Success
  /\ firstMatch (QPrnEvent p e) (docs (fst first)) = Some (id, stamped)
  /\ snd second = alreadyTrace stamped (stamp (env (S (calls w))))
  /\ shown (snd second) = Some Already
  /\ docs (fst second) = docs (fst first)
  /\ writes (fst second) = S (writes w)
  /\ calls (fst second) = 3 + calls w.
Proof.
  intros Hsel Hne Hs Hfind Hc. cbv zeta.
  destruct (guard_passes ev e Hsel Hne) as [G O].
  assert (E1 : lookupAndCheckIn env ev p w
               = (mkWorld (patchDoc id (resolveDoc (stamp (env (S (calls w))))
                                                   checkInPatch) (docs w))
                          (nextId w) (S (S (calls w))) (S (writes w)),
                  ShowState Loading :: onSuccess d)).
  { unfold lookupAndCheckIn, storeGet, storeUpdate.
    rewrite G, O, settle_bare, Hs, Hfind, Hc. cbn [bump calls docs nextId writes].
    rewrite settle_bare, Hs.
    destruct (firstMatch_lookupDoc _ _ _ _ Hfind) as [x Hx]. rewrite Hx.
    reflexivity. }
  rewrite E1. cbn [fst snd].
  pose proof (firstMatch_patchDoc p e (stamp (env (S (calls w)))) id _ _ Hfind)
    as Hfind2.
  rewrite (lookup_already env ev e p
             (mkWorld (patchDoc id (resolveDoc (stamp (env (S (calls w))))
                                               checkInPatch) (docs w))
                      (nextId w) (S (S (calls w))) (S (writes w)))
             id _ (stamp (env (S (calls w))))
             Hsel Hne (Hs _) Hfind2
             (lookup_patch_checkedIn _ _) (lookup_patch_checkInTime _ _)).
  cbn [fst snd bump docs writes calls].
  repeat split; try reflexivity. exact Hfind2.
Qed.

Lemma check_in_then_rescan_witness :
  let w := mkWorld [(0, attendee "E1" "1" "A" None)] 1 0 0 in
  let first := lookupAndCheckIn servedEnv festival "1" w in
  let second := lookupAndCheckIn servedEnv festival "1" (fst first) in
  shown (snd first) = Some Success
  /\ shown (snd second) = Some Already
  /\ writes (fst second) = 1.
Proof.
  pose proof (check_in_then_rescan servedEnv festival "E1" "1"
                (mkWorld [(0, attendee "E1" "1" "A" None)] 1 0 0)
                0 (attendee "E1" "1" "A" None)
                eq_refl ltac:(discriminate) (fun k => eq_refl)
                eq_refl eq_refl) as H.
  cbv zeta in *. destruct H as (_ & H1 & _ & _ & H2 & _ & H3 & _).
  split; [exact H1|]. split; [exact H2 | exact H3].
Defined.

Lemma lookup_patch_other (t : Timestamp) (d : Doc) (k : string) :
  k <> "checkedIn" -> k <> "checkInTime" ->
  (resolveDoc t checkInPatch ∪ d) !! k = d !! k.
Proof.
  intros H1 H2. apply lookup_union_r.
  unfold resolveDoc, checkInPatch. rewrite lookup_fmap.
  rewrite lookup_insert_ne by congruence.
  rewrite lookup_insert_ne by congruence.
  reflexivity.
Qed.

Lemma sameButCheckIn_refl (ds : list (DocId * Doc)) :
  Forall2 sameButCheckIn ds ds.
Proof. induction ds; constructor; [split; auto | assumption]. Qed.

Lemma sameButCheckIn_patchDoc (id : DocId) (t : Timestamp)
    (ds : list (DocId * Doc)) :
  Forall2 sameButCheckIn ds (patchDoc id (resolveDoc t checkInPatch) ds).
Proof.
  unfold patchDoc. induction ds as [|[i x] rest IH]; cbn [map]; constructor;
    [|exact IH].
  cbn [fst snd]. destruct (Nat.eqb i id); split; cbn [fst snd]; auto.
  intros k H1 H2. apply lookup_patch_other; assumption.
Qed.

(** X4. Whatever the store answers and whatever is scanned, a check-in
    neither adds, removes nor reorders records, and changes no field of any
    record other than [checkedIn] and [checkInTime]; it sends at most two
    requests and at most one write. *)
Theorem check_in_changes_only_its_two_fields
    (env : Env) (ev : Events) (p : string) (w : World) :
  let w' := fst (lookupAndCheckIn env ev p w) in
  Forall2 sameButCheckIn (docs w) (docs w')
  /\ nextId w' = nextId w
  /\ writes w <= writes w' <= S (writes w)
  /\ calls w <= calls w' <= 2 + calls w.
Proof.
  cbv zeta. unfold lookupAndCheckIn.
  destruct (negb (Js.truthyStr (getSelectedEventId ev))).
  { cbn [fst]. split; [apply sameButCheckIn_refl | lia]. }
  pose proof (storeGet_world env None
                (QPrnEvent p (Js.orEmpty (getSelectedEventId ev))) w) as Hg.
  destruct (storeGet env None
              (QPrnEvent p (Js.orEmpty (getSelectedEventId ev))) w)
    as [[[[id d]|]|err] w1]; cbn [fst snd] in *; subst w1;
    try (cbn [bump docs nextId writes calls];
         split; [apply sameButCheckIn_refl | lia]).
  destruct (truthy (d !! "checkedIn")).
  { cbn [fst bump docs nextId writes calls].
    split; [apply sameButCheckIn_refl | lia]. }
  unfold storeUpdate. cbn [bump docs nextId writes calls].
  destruct (settle None (env (S (calls w))) (S (calls w))).
  { cbn [fst bump docs nextId writes calls].
    split; [apply sameButCheckIn_refl | lia]. }
  destruct (lookupDoc id (docs w)); cbn [fst bump docs nextId writes calls].
  - split; [apply sameButCheckIn_patchDoc | lia].
  - split; [apply sameButCheckIn_refl | lia].
Qed.

(** ** The import and the records already stored *)

(** A turn of the loop leaves the collection as it is, or appends the one
    document built from its row after a duplicate check that found
    nothing. *)
Lemma uploadRow_cases (env : Env) (qr : gmap string string) (row : Row)
    (c : Counters) (w : World) :
  let c' := fst (fst (uploadRow env qr row c w)) in
  let w' := snd (fst (uploadRow env qr row c w)) in
  (docs w' = docs w /\ writes w' = writes w /\ nextId w' = nextId w
   /\ uploaded c' = uploaded c)
  \/ (firstMatch (QPrn (prn row)) (docs w) = None
      /\ (exists t, docs w' = docs w ++ [(nextId w, resolveDoc t (docData qr row))])
      /\ writes w' = S (writes w) /\ nextId w' = S (nextId w)
      /\ uploaded c' <= S (uploaded c)).
Proof.
  cbv zeta. unfold uploadRow, storeGet.
  destruct (settle (Some ROW_TIMEOUT_MS) (env (calls w)) (calls w)) as [err|].
  { left. cbn [fst snd bump docs writes nextId uploaded]. auto. }
  destruct (firstMatch (QPrn (prn row)) (docs w)) as [hit|] eqn:Hfind.
  { left. cbn [fst snd bump docs writes nextId uploaded]. auto. }
  unfold storeAdd. cbn [bump docs writes nextId calls].
  destruct (served (env (S (calls w)))) eqn:Es.
  - right. split; [reflexivity|].
    destruct (settle (Some ROW_TIMEOUT_MS) (env (S (calls w))) (S (calls w)));
      cbn [fst snd docs writes nextId uploaded];
      (split; [eexists; reflexivity|]); repeat split; lia.
  - left.
    destruct (settle (Some ROW_TIMEOUT_MS) (env (S (calls w))) (S (calls w))) eqn:E;
      cbn [fst snd bump docs writes nextId uploaded]; auto.
    apply settle_None_served in E. congruence.
Qed.

Lemma uploadLoop_appends (env : Env) (qr : gmap string string) (rows : list Row) :
  forall (c : Counters) (w : World),
    let c' := fst (fst (uploadLoop env qr rows c w)) in
    let w' := snd (fst (uploadLoop env qr rows c w)) in
    exists added,
      docs w' = docs w ++ added
      /\ writes w' = writes w + length added
      /\ nextId w' = nextId w + length added
      /\ Forall (fun x => exists row t,
                   In row rows /\ snd x = resolveDoc t (docData qr row)) added
      /\ uploaded c' <= uploaded c + length added.
Proof.
  induction rows as [|row rest IH]; intros c w; cbv zeta.
  - exists []. cbn. rewrite app_nil_r. repeat split; auto; lia.
  - cbn [uploadLoop].
    pose proof (uploadRow_cases env qr row c w) as Hrow. cbv zeta in Hrow.
    destruct (uploadRow env qr row c w) as [[c1 w1] t1]. cbn [fst snd] in Hrow.
    specialize (IH c1 w1). cbv zeta in IH.
    destruct (uploadLoop env qr rest c1 w1) as [[c2 w2] t2]. cbn [fst snd] in *.
    destruct IH as (more & Hd & Hw & Hn & Hall & Hu).
    assert (Hall' : Forall (fun x => exists row0 t,
                      In row0 (row :: rest)
                      /\ snd x = resolveDoc t (docData qr row0)) more).
    { eapply Forall_impl; [exact Hall|]. intros x (r & t & Hin & E).
      exists r, t. split; [right; exact Hin | exact E]. }
    destruct Hrow as [(Ed & Ew & En & Eu) | (_ & (t & Ed) & Ew & En & Eu)].
    + exists more. rewrite Hd, Hw, Hn, Ed, Ew, En.
      repeat split; auto; lia.
    + exists ((nextId w, resolveDoc t (docData qr row)) :: more).
      rewrite Hd, Hw, Hn, Ed, Ew, En, <- app_assoc. cbn [app length].
      repeat split; try lia.
      constructor; [|exact Hall'].
      exists row, t. split; [left; reflexivity | reflexivity].
Qed.

(** X5. An import never modifies, removes or reorders a stored record,
    whatever the store answers: the collection after the run is the
    collection before it followed by the documents the run added, one per
    write, each built from a row of the parsed roster; the rows reported as
    uploaded are among them. *)
Theorem import_only_appends (env : Env) (u : Upload) (w : World) :
  let o := fst (fst (processAndUpload env u w)) in
  let w' := snd (fst (processAndUpload env u w)) in
  exists added,
    docs w' = docs w ++ added
    /\ writes w' = writes w + length added
    /\ Forall (fun x => exists row t,
                 In row (parsedData u)
                 /\ snd x = resolveDoc t (docData (qrDataMap u) row)) added
    /\ (forall c n, o = Finished c n -> uploaded c <= length added).
Proof.
  cbv zeta. unfold processAndUpload.
  destruct (length (parsedData u) =? 0)%nat.
  { exists []. cbn. rewrite app_nil_r. repeat split; auto. discriminate. }
  pose proof (storeGet_world env (Some PROBE_TIMEOUT_MS) QAll w) as Hg.
  destruct (storeGet env (Some PROBE_TIMEOUT_MS) QAll w) as [[hit|err] w1];
    cbn [fst snd] in *; subst w1.
  - pose proof (uploadLoop_appends env (qrDataMap u) (parsedData u)
                  (mkCounters 0 0 0) (bump w)) as H. cbv zeta in H.
    destruct (uploadLoop env (qrDataMap u) (parsedData u) (mkCounters 0 0 0)
                (bump w)) as [[c w2] t]. cbn [fst snd bump docs writes uploaded] in *.
    destruct H as (added & Hd & Hw & _ & Hall & Hu).
    exists added. repeat split; auto.
    intros c0 n E. inversion E; subst. lia.
  - exists []. cbn. rewrite app_nil_r. repeat split; auto. discriminate.
Qed.

(** *** One record per prn *)

Lemma prnCount_app (p : string) (a b : list (DocId * Doc)) :
  prnCount p (a ++ b) = prnCount p a + prnCount p b.
Proof. unfold prnCount. rewrite List.filter_app, length_app. reflexivity. Qed.

Lemma firstMatch_QPrn_None (p : string) (ds : list (DocId * Doc)) :
  firstMatch (QPrn p) ds = None -> prnCount p ds = 0.
Proof.
  unfold firstMatch, prnCount. induction ds as [|x rest IH]; cbn; [reflexivity|].
  destruct (fieldIs (snd x) "prn" p); [discriminate | exact IH].
Qed.

Lemma prnCount_new (qr : gmap string string) (row : Row) (t : Timestamp)
    (i : DocId) (p : string) :
  prnCount p [(i, resolveDoc t (docData qr row))]
  = if String.eqb (prn row) p then 1 else 0.
Proof.
  unfold prnCount. cbn [List.filter snd]. unfold fieldIs.
  rewrite lookup_docData_prn.
  destruct (String.eqb_spec (prn row) p) as [E|N].
  - subst. rewrite bool_decide_eq_true_2 by reflexivity. reflexivity.
  - rewrite bool_decide_eq_false_2 by congruence. reflexivity.
Qed.

Lemma prnUnique_uploadRow (env : Env) (qr : gmap string string) (row : Row)
    (c : Counters) (w : World) :
  prnUnique (docs w) ->
  prnUnique (docs (snd (fst (uploadRow env qr row c w)))).
Proof.
  intros H.
  destruct (uploadRow_cases env qr row c w)
    as [(Ed & _) | (Hnone & (t & Ed) & _)]; rewrite Ed; [exact H|].
  intros p. rewrite prnCount_app, prnCount_new.
  destruct (String.eqb_spec (prn row) p) as [E|N].
  - subst. rewrite (firstMatch_QPrn_None _ _ Hnone). lia.
  - specialize (H p). lia.
Qed.

Lemma prnUnique_uploadLoop (env : Env) (qr : gmap string string) (rows : list Row) :
  forall (c : Counters) (w : World),
    prnUnique (docs w) ->
    prnUnique (docs (snd (fst (uploadLoop env qr rows c w)))).
Proof.
  induction rows as [|row rest IH]; intros c w H; cbn [uploadLoop]; [exact H|].
  pose proof (prnUnique_uploadRow env qr row c w H) as Hr.
  destruct (uploadRow env qr row c w) as [[c1 w1] t1]. cbn [fst snd] in Hr.
  specialize (IH c1 w1 Hr).
  destruct (uploadLoop env qr rest c1 w1) as [[c2 w2] t2]. exact IH.
Qed.

(** X6. An import never gives a prn a second record: when no two stored
    records share a prn before the run, none do after it, for every roster
    (rows repeating a prn included), whichever requests are rejected or time
    out; a write counts as applied when the store serves its request. *)
Theorem import_keeps_prn_unique (env : Env) (u : Upload) (w : World) :
  prnUnique (docs w) ->
  prnUnique (docs (snd (fst (processAndUpload env u w)))).
Proof.
  intros H. unfold processAndUpload.
  destruct (length (parsedData u) =? 0)%nat; [exact H|].
  pose proof (storeGet_world env (Some PROBE_TIMEOUT_MS) QAll w) as Hg.
  destruct (storeGet env (Some PROBE_TIMEOUT_MS) QAll w) as [[hit|err] w1];
    cbn [fst snd] in *; subst w1; [|exact H].
  pose proof (prnUnique_uploadLoop env (qrDataMap u) (parsedData u)
                (mkCounters 0 0 0) (bump w) H) as Hl.
  destruct (uploadLoop env (qrDataMap u) (parsedData u) (mkCounters 0 0 0)
              (bump w)) as [[c w2] t]. exact Hl.
Qed.

Lemma import_keeps_prn_unique_witness :
  let u := fst (onFileReady demoQr fullHeader
                  [rawRow "A" "1" "a@x.com" "1" "FE";
                   rawRow "B" "1" "b@x.com" "2" "SE"]) in
  prnUnique (docs (snd (fst (processAndUpload (slowAt 2 20000) u emptyWorld)))).
Proof.
  apply (import_keeps_prn_unique (slowAt 2 20000)
           (fst (onFileReady demoQr fullHeader
                   [rawRow "A" "1" "a@x.com" "1" "FE";
                    rawRow "B" "1" "b@x.com" "2" "SE"]))
           emptyWorld).
  intros p. cbn. lia.
Defined.

(** *** Importing the same roster again *)

Lemma settle_prompt (env : Env) (k : nat) :
  prompt env ->
  settle (Some PROBE_TIMEOUT_MS) (env k) k = None
  /\ settle (Some ROW_TIMEOUT_MS) (env k) k = None.
Proof.
  intros H. destruct (H k) as [Hs Hl]. unfold settle. rewrite Hs.
  assert (Hp : (latency (env k) <=? PROBE_TIMEOUT_MS)%N = true)
    by (apply N.leb_le; lia).
  assert (Hr : (latency (env k) <=? ROW_TIMEOUT_MS)%N = true).
  { apply N.leb_le. unfold PROBE_TIMEOUT_MS in Hl. unfold ROW_TIMEOUT_MS. lia. }
  rewrite Hp, Hr. auto.
Qed.

Lemma firstMatch_app_Some (q : Query) (a b : list (DocId * Doc)) :
  is_Some (firstMatch q a) -> is_Some (firstMatch q (a ++ b)).
Proof.
  unfold firstMatch. induction a as [|x rest IH]; cbn.
  - intros [? H]. discriminate H.
  - destruct (matches q (snd x)); [eauto | exact IH].
Qed.

Lemma firstMatch_new (qr : gmap string string) (row : Row) (t : Timestamp)
    (i : DocId) (ds : list (DocId * Doc)) :
  is_Some (firstMatch (QPrn (prn row))
             (ds ++ [(i, resolveDoc t (docData qr row))])).
Proof.
  unfold firstMatch. induction ds as [|x rest IH]; cbn.
  - unfold fieldIs. rewrite lookup_docData_prn.
    rewrite bool_decide_eq_true_2 by reflexivity. eauto.
  - destruct (fieldIs (snd x) "prn" (prn row)); [eauto | exact IH].
Qed.

(** With a prompt store the row is on record after its turn. *)
Lemma uploadRow_prompt (env : Env) (qr : gmap string string) (row : Row)
    (c : Counters) (w : World) :
  prompt env ->
  is_Some (firstMatch (QPrn (prn row))
             (docs (snd (fst (uploadRow env qr row c w))))).
Proof.
  intros Hp. unfold uploadRow, storeGet.
  destruct (settle_prompt env (calls w) Hp) as [_ E]. rewrite E.
  destruct (firstMatch (QPrn (prn row)) (docs w)) as [hit|] eqn:Hfind.
  - cbn [fst snd bump docs]. rewrite Hfind. eauto.
  - unfold storeAdd. cbn [bump calls docs nextId writes].
    destruct (settle_prompt env (S (calls w)) Hp) as [_ E2]. rewrite E2.
    destruct (Hp (S (calls w))) as [Hs _]. rewrite Hs.
    cbn [fst snd docs]. apply firstMatch_new.
Qed.

Lemma uploadLoop_prompt (env : Env) (qr : gmap string string) (rows : list Row) :
  prompt env ->
  forall (c : Counters) (w : World) (row : Row),
    In row rows ->
    is_Some (firstMatch (QPrn (prn row))
               (docs (snd (fst (uploadLoop env qr rows c w))))).
Proof.
  intros Hp. induction rows as [|r rest IH]; intros c w row Hin; [destruct Hin|].
  cbn [uploadLoop].
  pose proof (uploadRow_prompt env qr r c w Hp) as Hr.
  destruct (uploadRow env qr r c w) as [[c1 w1] t1]. cbn [fst snd] in Hr.
  pose proof (uploadLoop_appends env qr rest c1 w1) as Happ. cbv zeta in Happ.
  specialize (IH c1 w1).
  destruct (uploadLoop env qr rest c1 w1) as [[c2 w2] t2]. cbn [fst snd] in *.
  destruct Hin as [E|Hin]; [subst r | exact (IH row Hin)].
  destruct Happ as (added & Hd & _). rewrite Hd.
  apply firstMatch_app_Some, Hr.
Qed.

(** With a prompt store, rows that are all on record are all skipped. *)
Lemma uploadLoop_all_skipped (env : Env) (qr : gmap string string)
    (rows : list Row) :
  prompt env ->
  forall (c : Counters) (w : World),
    (forall row, In row rows ->
                 is_Some (firstMatch (QPrn (prn row)) (docs w))) ->
    uploadLoop env qr rows c w
    = (mkCounters (uploaded c) (length rows + skipped c) (failed c),
       mkWorld (docs w) (nextId w) (length rows + calls w) (writes w),
       []).
Proof.
  intros Hp. induction rows as [|r rest IH]; intros c w Hall.
  - destruct c, w. reflexivity.
  - cbn [uploadLoop]. unfold uploadRow at 1, storeGet.
    destruct (settle_prompt env (calls w) Hp) as [_ E]. rewrite E.
    destruct (Hall r (or_introl eq_refl)) as [hit Hhit]. rewrite Hhit.
    rewrite (IH _ (bump w)); [|intros row Hin; apply Hall; right; exact Hin].
    cbn [bump docs nextId calls writes uploaded skipped failed length app].
    rewrite !Nat.add_succ_r. reflexivity.
Qed.

(** X7. Importing the same parsed roster twice in a row against a store
    that answers every request in time uploads nothing the second time:
    every row is skipped as a duplicate, no write is sent and the
    collection is left as the first run made it. *)
Theorem reimport_skips_every_row (env : Env) (u : Upload) (w : World) :
  prompt env -> parsedData u <> [] ->
  let w1 := snd (fst (processAndUpload env u w)) in
  let n := length (parsedData u) in
  fst (processAndUpload env u w1)
  = (Finished (mkCounters 0 n 0) n,
     mkWorld (docs w1) (nextId w1) (S n + calls w1) (writes w1))
  /\ snd (processAndUpload env u w1)
     = [ShowResults 0 n 0; ShowToast (MsgUploadComplete 0 n 0) TSuccess].
Proof.
  intros Hp Hrows. cbv zeta.
  assert (Hlen : (length (parsedData u) =? 0)%nat = false).
  { destruct (parsedData u); [contradiction | reflexivity]. }
  assert (Hon : forall row, In row (parsedData u) ->
            is_Some (firstMatch (QPrn (prn row))
                       (docs (snd (fst (processAndUpload env u w)))))).
  { intros row Hin. unfold processAndUpload, storeGet. rewrite Hlen.
    destruct (settle_prompt env (calls w) Hp) as [E _]. rewrite E.
    pose proof (uploadLoop_prompt env (qrDataMap u) (parsedData u) Hp
                  (mkCounters 0 0 0) (bump w) row Hin) as H.
    destruct (uploadLoop env (qrDataMap u) (parsedData u) (mkCounters 0 0 0)
                (bump w)) as [[c w2] t]. exact H. }
  set (w1 := snd (fst (processAndUpload env u w))) in *.
  unfold processAndUpload, storeGet. rewrite Hlen.
  destruct (settle_prompt env (calls w1) Hp) as [E _]. rewrite E.
  rewrite (uploadLoop_all_skipped env (qrDataMap u) (parsedData u) Hp
             (mkCounters 0 0 0) (bump w1) Hon).
  cbn [fst snd bump docs nextId calls writes uploaded skipped failed].
  rewrite !Nat.add_0_r, !Nat.add_succ_r. split; reflexivity.
Qed.

Lemma reimport_skips_every_row_witness :
  let u := fst (onFileReady demoQr fullHeader
                  [rawRow "A" "1" "a@x.com" "1" "FE";
                   rawRow "B" "2" "b@x.com" "2" "SE"]) in
  let w1 := snd (fst (processAndUpload servedEnv u emptyWorld)) in
  fst (fst (processAndUpload servedEnv u w1)) = Finished (mkCounters 0 2 0) 2
  /\ length (docs w1) = 2.
Proof.
  pose proof (reimport_skips_every_row servedEnv
                (fst (onFileReady demoQr fullHeader
                        [rawRow "A" "1" "a@x.com" "1" "FE";
                         rawRow "B" "2" "b@x.com" "2" "SE"]))
                emptyWorld) as H.
  cbv zeta in *. destruct H as [H _].
  - intros k. split; [reflexivity | vm_compute; reflexivity].
  - vm_compute. discriminate.
  - split; [rewrite H; reflexivity | vm_compute; reflexivity].
Defined.

(** ** QR codes of the parsed rows *)

Lemma orEmpty_Some (s : string) : Js.orEmpty (Some s) = s.
Proof.
  unfold Js.orEmpty. destruct (String.eqb_spec s ""); [subst|]; reflexivity.
Qed.

Lemma lookup_docData_qrData (qr : gmap string string) (row : Row) :
  docData qr row !! "qrData" = Some (VStr (Js.orEmpty (qr !! prn row))).
Proof. reflexivity. Qed.

Lemma qr_fold (g : string -> string) (rows : list Row) :
  forall m : gmap string string,
    (forall k v, m !! k = Some v -> v = g k) ->
    let m' := fold_left (fun m row => <[prn row := g (prn row)]> m) rows m in
    (forall k v, m' !! k = Some v -> v = g k)
    /\ (forall row, In row rows -> is_Some (m' !! prn row))
    /\ (forall k, is_Some (m !! k) -> is_Some (m' !! k)).
Proof.
  induction rows as [|r rest IH]; intros m Hm; cbv zeta; cbn [fold_left].
  - split; [exact Hm|]. split; [intros row []| auto].
  - destruct (IH (<[prn r := g (prn r)]> m)) as (H1 & H2 & H3).
    { intros k v. destruct (decide (k = prn r)) as [->|N].
      - rewrite lookup_insert_eq. congruence.
      - rewrite lookup_insert_ne by congruence. apply Hm. }
    split; [exact H1|]. split.
    + intros row [E|Hin]; [subst row | exact (H2 row Hin)].
      apply H3. rewrite lookup_insert_eq. eauto.
    + intros k Hk. apply H3.
      destruct (decide (k = prn r)) as [->|N].
      * rewrite lookup_insert_eq. eauto.
      * rewrite lookup_insert_ne by congruence. exact Hk.
Qed.

(** X8. After a roster is parsed, the preview map holds for every kept row
    the QR code generated from that row's own prn, and the document built
    for the row stores exactly that code, also when several rows share a
    prn. (The key "__proto__" is not an own property of a JS object and is
    left aside.) *)
Theorem each_row_keeps_its_own_qr_code
    (g : string -> string) (results : ParseResults) (row : Row) :
  In row (parsedData (fst (onParseComplete g results))) ->
  prn row <> "__proto__" ->
  let u := fst (onParseComplete g results) in
  qrDataMap u !! prn row = Some (g (prn row))
  /\ docData (qrDataMap u) row !! "qrData" = Some (VStr (g (prn row))).
Proof.
  intros Hin _. cbv zeta. revert Hin. unfold onParseComplete.
  destruct (0 <? length (missingColumns (fields results)))%nat;
    [intros []|].
  destruct (length (map cleanRow (List.filter keepRow (data results))) =? 0)%nat;
    [intros []|].
  cbn [fst parsedData qrDataMap]. intros Hin.
  destruct (qr_fold g (map cleanRow (List.filter keepRow (data results))) ∅)
    as (H1 & H2 & _).
  { intros k v H. rewrite lookup_empty in H. discriminate H. }
  destruct (H2 row Hin) as [v Hv].
  pose proof (H1 _ _ Hv) as E. subst v.
  split; [exact Hv|].
  rewrite lookup_docData_qrData, Hv, orEmpty_Some. reflexivity.
Qed.

Lemma each_row_keeps_its_own_qr_code_witness :
  let results := mkResults ["name"; "prn"; "email"; "mobile"; "year"]
                   [rawRow "A" "7" "a@x.com" "1" "FE";
                    rawRow "B" "7" "b@x.com" "2" "SE"] in
  let u := fst (onParseComplete demoQr results) in
  qrDataMap u !! "7" = Some (demoQr "7")
  /\ docData (qrDataMap u) (mkRow "B" "7" "b@x.com" "2" "SE") !! "qrData"
     = Some (VStr (demoQr "7")).
Proof.
  apply (each_row_keeps_its_own_qr_code demoQr
           (mkResults ["name"; "prn"; "email"; "mobile"; "year"]
              [rawRow "A" "7" "a@x.com" "1" "FE";
               rawRow "B" "7" "b@x.com" "2" "SE"])
           (mkRow "B" "7" "b@x.com" "2" "SE")).
  - vm_compute. right. left. reflexivity.
  - discriminate.
Defined.

(** ** The "Process & Upload" button *)

(** X9. The button is enabled by a parse exactly when rows were kept. A
    click that runs the import to its end leaves the button disabled, so a
    further click does nothing and touches no store; a click stopped by the
    connectivity probe leaves the button enabled and the parsed rows in
    place for a retry. *)
Theorem process_button_follows_the_import
    (g : string -> string) (results : ParseResults)
    (env : Env) (ev : Events) (w : World) :
  let u := fst (onParseComplete g results) in
  let r := onProcessClick env (mkApp ev u w) in
  (processBtnEnabled u = true <-> parsedData u <> [])
  /\ match fst (fst r) with
     | Finished _ _ =>
         processBtnEnabled (upload (snd (fst r))) = false
         /\ forall env', onProcessClick env' (snd (fst r))
                         = (Idle, snd (fst r), [])
     | ConnectivityFailed _ =>
         processBtnEnabled (upload (snd (fst r))) = true
         /\ parsedData (upload (snd (fst r))) = parsedData u
         /\ docs (world (snd (fst r))) = docs w
     | Idle => snd (fst r) = mkApp ev u w /\ snd r = []
     end.
Proof.
  cbv zeta. split.
  - unfold onParseComplete.
    destruct (0 <? length (missingColumns (fields results)))%nat;
      [cbn; split; [discriminate | congruence]|].
    destruct (map cleanRow (List.filter keepRow (data results))) as [|x xs] eqn:E;
      cbn; [split; [discriminate | congruence] | split; [discriminate | reflexivity]].
  - unfold onProcessClick. cbn [upload world events].
    destruct (processBtnEnabled (fst (onParseComplete g results))) eqn:Eb;
      [|cbn; auto].
    unfold processAndUpload.
    destruct (length (parsedData (fst (onParseComplete g results))) =? 0)%nat eqn:El.
    { cbn [fst snd]. split; [|reflexivity]. f_equal.
      destruct (fst (onParseComplete g results)). cbn in *. subst. reflexivity. }
    pose proof (storeGet_world env (Some PROBE_TIMEOUT_MS) QAll w) as Hg.
    destruct (storeGet env (Some PROBE_TIMEOUT_MS) QAll w) as [[hit|err] w1];
      cbn [fst snd] in *; subst w1.
    + destruct (uploadLoop env _ _ _ _) as [[c w2] t]. cbn [fst snd upload].
      split; [reflexivity|]. intros env'. reflexivity.
    + cbn [fst snd upload world parsedData processBtnEnabled docs bump]. auto.
Qed.

(** ** The scanner's cooldown *)

Lemma scanBurst_cooling (texts : list string) (sc : Scanner) :
  scanCooldown sc = true -> scanBurst texts sc = (sc, []).
Proof.
  intros H. induction texts as [|t rest IH]; cbn [scanBurst]; [reflexivity|].
  unfold onScanSuccess. rewrite H. cbn [orb]. rewrite IH. reflexivity.
Qed.

Lemma onScanSuccess_idle (t : string) :
  onScanSuccess t idleScanner
  = if String.eqb t "" then (idleScanner, None)
    else (mkScanner true t, Some (Js.trim t)).
Proof. reflexivity. Qed.

(** X10. However many codes the camera decodes before the cooldown timer
    fires, at most one lookup is started. From the idle scanner it is the
    lookup of the first decoded text that is not empty, trimmed; everything
    decoded after it, the same code or another, is dropped until the timer
    has reset the scanner. *)
Theorem scan_burst_starts_one_lookup (texts : list string) (sc : Scanner) :
  length (snd (scanBurst texts sc)) <= 1
  /\ (scanCooldown sc = true -> snd (scanBurst texts sc) = [])
  /\ snd (scanBurst texts idleScanner)
     = match find (fun t => negb (String.eqb t "")) texts with
       | Some t => [Js.trim t]
       | None => []
       end
  /\ onCooldownElapsed (fst (scanBurst texts sc)) = idleScanner.
Proof.
  split; [|split; [|split]].
  - revert sc. induction texts as [|t rest IH]; intros sc; cbn [scanBurst];
      [cbn; lia|].
    unfold onScanSuccess.
    destruct (scanCooldown sc || String.eqb t (lastScannedCode sc)).
    + specialize (IH sc). destruct (scanBurst rest sc). exact IH.
    + rewrite scanBurst_cooling by reflexivity. cbn. lia.
  - intros H. rewrite scanBurst_cooling by exact H. reflexivity.
  - induction texts as [|t rest IH]; cbn [scanBurst find]; [reflexivity|].
    rewrite onScanSuccess_idle.
    destruct (String.eqb t "") eqn:E; cbn [negb].
    + destruct (scanBurst rest idleScanner). exact IH.
    + rewrite scanBurst_cooling by reflexivity. reflexivity.
  - reflexivity.
Qed.

(** ** Retrying *)

Lemma retryLoop_spec {A E : Type} (fn : nat -> A + E) (left : nat) :
  forall attempt,
    let r := fst (fst (retryLoop fn attempt left)) in
    let n := snd (fst (retryLoop fn attempt left)) in
    let slept := snd (retryLoop fn attempt left) in
    n <= left
    /\ (forall k, attempt <= k < attempt + n - 1 -> exists e, fn k = inr e)
    /\ 2 * slept + 500 * (n - 1) = 1000 * (n - 1) * attempt + 500 * (n - 1) * (n - 1)
    /\ match r with
       | Returned a => 1 <= n /\ fn (attempt + n - 1) = inl a
       | Threw e => 1 <= n /\ n = left /\ fn (attempt + n - 1) = inr e
       | ReturnedUndefined => left = 0 /\ n = 0
       end.
Proof.
  induction left as [|left' IH]; intros attempt; cbv zeta; cbn [retryLoop].
  - cbn. repeat split; auto; intros; lia.
  - destruct (fn attempt) as [a|e] eqn:Ef.
    + cbn [fst snd]. rewrite Nat.add_sub.
      repeat split; auto; try lia; intros; lia.
    + destruct left' as [|left''].
      * cbn [fst snd]. rewrite Nat.add_sub.
        repeat split; auto; try lia; intros; lia.
      * specialize (IH (S attempt)). cbv zeta in IH.
        destruct (retryLoop fn (S attempt) (S left'')) as [[r n] slept].
        cbn [fst snd] in *. destruct IH as (Hn & Herr & Hs & Hr).
        assert (Hn1 : 1 <= n) by (destruct r; lia).
        split; [lia|]. split.
        { intros k Hk. destruct (Nat.eq_dec k attempt) as [->|Nk]; [eauto|].
          apply Herr. lia. }
        split.
        { replace (S n - 1) with (S (n - 1)) by lia. nia. }
        replace (attempt + S n - 1) with (S attempt + n - 1) by lia.
        destruct r; intuition lia.
Qed.

(** X11. [retryAsync] calls [fn] at most [maxRetries] times and stops at
    the first call that succeeds, returning its value; every earlier call
    failed. When all [maxRetries] calls fail it throws the error of the last
    one. Between calls it sleeps 500 ms times the number of the attempt
    just failed, 250 * (calls - 1) * calls ms in all. With [maxRetries] 0 it
    calls nothing and returns undefined. *)
Theorem retry_stops_at_first_success
    {A E : Type} (fn : nat -> A + E) (maxRetries : nat) :
  let r := fst (fst (retryAsync fn maxRetries)) in
  let n := snd (fst (retryAsync fn maxRetries)) in
  let slept := snd (retryAsync fn maxRetries) in
  n <= maxRetries
  /\ (forall k, 1 <= k < n -> exists e, fn k = inr e)
  /\ slept = 250 * (n - 1) * n
  /\ match r with
     | Returned a => 1 <= n /\ fn n = inl a
     | Threw e => 1 <= n /\ n = maxRetries /\ fn n = inr e
     | ReturnedUndefined => maxRetries = 0 /\ n = 0
     end.
Proof.
  cbv zeta. unfold retryAsync.
  pose proof (retryLoop_spec fn maxRetries 1) as H. cbv zeta in H.
  destruct (retryLoop fn 1 maxRetries) as [[r n] slept]. cbn [fst snd] in *.
  destruct H as (Hn & Herr & Hs & Hr).
  split; [exact Hn|]. split; [intros k Hk; apply Herr; lia|]. split.
  - destruct n as [|m]; [cbn in *; lia|].
    replace (S m - 1) with m in * by lia. nia.
  - destruct r.
    + destruct Hr as [H1 Hf]. replace (1 + n - 1) with n in Hf by lia. auto.
    + destruct Hr as (H1 & H2 & Hf). replace (1 + n - 1) with n in Hf by lia. auto.
    + exact Hr.
Qed.

(** ** The exported CSV can be read back *)

Lemma str_app_assoc (a b c : string) : (a +:+ b) +:+ c = a +:+ (b +:+ c).
Proof.
  induction a as [|x a IH]; [reflexivity|].
  change (String x ((a +:+ b) +:+ c) = String x (a +:+ (b +:+ c))).
  f_equal. exact IH.
Qed.

Lemma str_app_nil_r (a : string) : a +:+ "" = a.
Proof.
  induction a as [|x a IH]; [reflexivity|].
  change (String x (a +:+ "") = String x a). f_equal. exact IH.
Qed.

Lemma eqb_dquote_refl : Ascii.eqb dquote dquote = true.
Proof. reflexivity. Qed.

Lemma readQuoted_step (c : ascii) (r : string) :
  readQuoted (String c r)
  = if Ascii.eqb c dquote then
      match r with
      | String c2 r2 =>
          if Ascii.eqb c2 dquote
          then (fun fr => (String dquote (fst fr), snd fr)) <$> readQuoted r2
          else Some (EmptyString, r)
      | EmptyString => Some (EmptyString, EmptyString)
      end
    else (fun fr => (String c (fst fr), snd fr)) <$> readQuoted r.
Proof. reflexivity. Qed.

Lemma doubleQuotes_step (c : ascii) (r : string) :
  doubleQuotes (String c r)
  = if Ascii.eqb c dquote
    then String dquote (String dquote (doubleQuotes r))
    else String c (doubleQuotes r).
Proof. reflexivity. Qed.

Lemma str_app_cons (c : ascii) (a b : string) :
  String c a +:+ b = String c (a +:+ b).
Proof. reflexivity. Qed.

(** After a cell's closing quote comes the end, a comma or a line break,
    never a quote: the reader then gives back the cell and the rest. *)
Lemma readQuoted_field (v rest : string) :
  (forall c r, rest = String c r -> Ascii.eqb c dquote = false) ->
  readQuoted (doubleQuotes v +:+ String dquote rest) = Some (v, rest).
Proof.
  intros Hrest. induction v as [|c v IH].
  - change (readQuoted (String dquote rest) = Some (EmptyString, rest)).
    rewrite readQuoted_step, eqb_dquote_refl.
    destruct rest as [|c2 r2]; [reflexivity|].
    rewrite (Hrest c2 r2 eq_refl). reflexivity.
  - rewrite doubleQuotes_step. destruct (Ascii.eqb c dquote) eqn:E.
    + rewrite !str_app_cons, readQuoted_step, eqb_dquote_refl.
      cbv beta iota. rewrite IH.
      apply Ascii.eqb_eq in E. subst c. reflexivity.
    + rewrite str_app_cons, readQuoted_step, E, IH. reflexivity.
Qed.

Lemma csvLine_cons (f : string) (fs : list string) (T : string) :
  csvLine (f :: fs) +:+ T
  = String dquote
      (doubleQuotes f +:+
       String dquote (match fs with
                      | [] => T
                      | _ :: _ => "," +:+ (csvLine fs +:+ T)
                      end)).
Proof.
  unfold csvLine. destruct fs as [|g fs]; cbn [map Js.join]; unfold csvField at 1.
  - rewrite str_app_cons, str_app_assoc. reflexivity.
  - rewrite !str_app_cons, !str_app_assoc. reflexivity.
Qed.

(** A line followed by the end or by a line break determines its cells. *)
Lemma csvLine_then_inj (r1 : list string) :
  forall (r2 : list string) (T1 T2 : string),
    r1 <> [] -> r2 <> [] ->
    (T1 = "" \/ exists r, T1 = newline +:+ r) ->
    (T2 = "" \/ exists r, T2 = newline +:+ r) ->
    csvLine r1 +:+ T1 = csvLine r2 +:+ T2 ->
    r1 = r2 /\ T1 = T2.
Proof.
  induction r1 as [|f1 fs1 IH]; intros r2 T1 T2 N1 N2 HT1 HT2 E;
    [contradiction|].
  destruct r2 as [|f2 fs2]; [contradiction|].
  rewrite !csvLine_cons in E. injection E as E.
  assert (Hok : forall (fs : list string) (T : string),
            (T = "" \/ exists r, T = newline +:+ r) ->
            forall c r,
              match fs with
              | [] => T
              | _ :: _ => "," +:+ (csvLine fs +:+ T)
              end = String c r -> Ascii.eqb c dquote = false).
  { intros fs T HT c r. destruct fs as [|g gs].
    - destruct HT as [->|[r' ->]]; [discriminate|].
      cbn. intros H. injection H as <- _. reflexivity.
    - cbn. intros H. injection H as <- _. reflexivity. }
  pose proof (readQuoted_field f1 _ (Hok fs1 T1 HT1)) as R1.
  pose proof (readQuoted_field f2 _ (Hok fs2 T2 HT2)) as R2.
  rewrite E in R1. rewrite R1 in R2. injection R2 as Ef Et. subst f2.
  destruct fs1 as [|g1 gs1], fs2 as [|g2 gs2].
  - auto.
  - exfalso. destruct HT1 as [->|[r ->]]; discriminate Et.
  - exfalso. destruct HT2 as [->|[r ->]]; discriminate Et.
  - cbn in Et. injection Et as Et.
    destruct (IH (g2 :: gs2) T1 T2) as [Er ET]; try assumption; try discriminate.
    rewrite Er. auto.
Qed.

Lemma csvLine_inj (r1 r2 : list string) : csvLine r1 = csvLine r2 -> r1 = r2.
Proof.
  intros E. destruct r1 as [|f1 fs1], r2 as [|f2 fs2]; [reflexivity| | |].
  - pose proof (csvLine_cons f2 fs2 "") as H. rewrite str_app_nil_r, <- E in H.
    discriminate H.
  - pose proof (csvLine_cons f1 fs1 "") as H. rewrite str_app_nil_r, E in H.
    discriminate H.
  - apply (csvLine_then_inj (f1 :: fs1) (f2 :: fs2) "" ""); auto; try discriminate.
    rewrite !str_app_nil_r. exact E.
Qed.

Lemma csvContent_cons (r : list string) (rows : list (list string)) :
  csvContent (r :: rows)
  = csvLine r +:+ match rows with
                  | [] => ""
                  | _ :: _ => newline +:+ csvContent rows
                  end.
Proof.
  unfold csvContent. destruct rows as [|r' rows]; cbn [map Js.join].
  - rewrite str_app_nil_r. reflexivity.
  - reflexivity.
Qed.

Lemma csvContent_inj (rows1 : list (list string)) :
  forall rows2,
    Forall (fun r => r <> []) rows1 -> Forall (fun r => r <> []) rows2 ->
    csvContent rows1 = csvContent rows2 -> rows1 = rows2.
Proof.
  induction rows1 as [|r1 rest1 IH]; intros rows2 H1 H2 E.
  - destruct rows2 as [|r2 rest2]; [reflexivity|].
    inversion H2 as [|? ? N2 _]; subst. destruct r2 as [|f fs]; [contradiction|].
    rewrite csvContent_cons, csvLine_cons in E. discriminate E.
  - inversion H1 as [|? ? N1 H1']; subst.
    destruct rows2 as [|r2 rest2].
    + destruct r1 as [|f fs]; [contradiction|].
      rewrite csvContent_cons, csvLine_cons in E. discriminate E.
    + inversion H2 as [|? ? N2 H2']; subst.
      rewrite !csvContent_cons in E.
      apply csvLine_then_inj in E; try assumption.
      * destruct E as [-> ET]. f_equal.
        destruct rest1 as [|a1 b1], rest2 as [|a2 b2]; try discriminate ET;
          [reflexivity|].
        cbn in ET. injection ET as ET. apply IH; assumption.
      * destruct rest1; [left; reflexivity | right; eexists; reflexivity].
      * destruct rest2; [left; reflexivity | right; eexists; reflexivity].
Qed.

Lemma exportRowsFrom_fields (toL tsT : Timestamp -> string)
    (l : list (DocId * Doc)) :
  forall i rows,
    exportRowsFrom toL tsT i l = inl rows ->
    length rows = length l /\ Forall (fun r => length r = 8) rows.
Proof.
  induction l as [|a rest IH]; intros i rows E; cbn [exportRowsFrom] in E.
  - injection E as <-. split; [reflexivity | constructor].
  - unfold exportRow in E. destruct (checkInTimeOf (snd a)) as [t|err];
      [|discriminate E].
    destruct (exportRowsFrom toL tsT (S i) rest) as [rs|err] eqn:Er;
      [|discriminate E].
    injection E as <-. destruct (IH _ _ Er) as [Hl Hf].
    split; [cbn; rewrite Hl; reflexivity | constructor; [reflexivity | exact Hf]].
Qed.

(** X12. The exported CSV text determines the exported table: a line
    determines its cells and a text its lines, since every cell is wrapped
    in quotes with its own quotes doubled. An export writes the header and
    one line of eight cells per row shown in the table, so two exports with
    the same text exported the same rows. *)
Theorem csv_export_reads_back (toL tsT : Timestamp -> string) :
  (forall r1 r2, csvLine r1 = csvLine r2 -> r1 = r2)
  /\ (forall rows1 rows2,
        Forall (fun r => r <> []) rows1 -> Forall (fun r => r <> []) rows2 ->
        csvContent rows1 = csvContent rows2 -> rows1 = rows2)
  /\ (forall d content,
        exportCSV toL tsT d = Exported content ->
        exists rows,
          exportRowsFrom toL tsT 0 (visibleRows tsT d) = inl rows
          /\ content = csvContent (EXPORT_HEADER :: rows)
          /\ length rows = length (visibleRows tsT d)
          /\ Forall (fun r => length r = 8) rows)
  /\ (forall d1 d2 content,
        exportCSV toL tsT d1 = Exported content ->
        exportCSV toL tsT d2 = Exported content ->
        exportRowsFrom toL tsT 0 (visibleRows tsT d1)
        = exportRowsFrom toL tsT 0 (visibleRows tsT d2)).
Proof.
  assert (Hexp : forall d content,
            exportCSV toL tsT d = Exported content ->
            exists rows,
              exportRowsFrom toL tsT 0 (visibleRows tsT d) = inl rows
              /\ content = csvContent (EXPORT_HEADER :: rows)
              /\ length rows = length (visibleRows tsT d)
              /\ Forall (fun r => length r = 8) rows).
  { intros d content E. unfold exportCSV in E.
    destruct (length (visibleRows tsT d) =? 0)%nat; [discriminate E|].
    destruct (exportRowsFrom toL tsT 0 (visibleRows tsT d)) as [rows|err] eqn:Er;
      [|discriminate E].
    injection E as <-. destruct (exportRowsFrom_fields _ _ _ _ _ Er) as [Hl Hf].
    exists rows. auto. }
  split; [exact csvLine_inj|]. split; [exact csvContent_inj|].
  split; [exact Hexp|].
  intros d1 d2 content E1 E2.
  destruct (Hexp _ _ E1) as (rows1 & R1 & C1 & _ & F1).
  destruct (Hexp _ _ E2) as (rows2 & R2 & C2 & _ & F2).
  rewrite R1, R2. f_equal.
  assert (Hne : forall rows, Forall (fun r : list string => length r = 8) rows ->
                  Forall (fun r : list string => r <> []) (EXPORT_HEADER :: rows)).
  { intros rows H. constructor; [discriminate|].
    eapply Forall_impl; [exact H|]. intros r Hr ->. discriminate Hr. }
  assert (E : EXPORT_HEADER :: rows1 = EXPORT_HEADER :: rows2).
  { apply csvContent_inj; auto. congruence. }
  injection E as E. exact E.
Qed.

(** ** Stat cards and table filters *)

Lemma isWhiteSpace_lowerChar (c : ascii) :
  Js.isWhiteSpace (Js.lowerChar c) = Js.isWhiteSpace c.
Proof.
  destruct c as [[] [] [] [] [] [] [] []]; reflexivity.
Qed.

Lemma allWhiteSpace_toLowerCase (s : string) :
  Js.allWhiteSpace (Js.toLowerCase s) = Js.allWhiteSpace s.
Proof.
  induction s as [|c r IH]; [reflexivity|].
  change (Js.isWhiteSpace (Js.lowerChar c) && Js.allWhiteSpace (Js.toLowerCase r)
          = Js.isWhiteSpace c && Js.allWhiteSpace r).
  rewrite isWhiteSpace_lowerChar, IH. reflexivity.
Qed.

Lemma searchQuery_blank (d : Dashboard) :
  Js.allWhiteSpace (searchInput d) = true ->
  Js.truthyStr (Some (searchQuery d)) = false.
Proof.
  intros H. unfold searchQuery.
  rewrite trim_allWhiteSpace; [reflexivity|].
  rewrite allWhiteSpace_toLowerCase. exact H.
Qed.

Lemma filter_split_length {A : Type} (f g h : A -> bool) (l : list A) :
  (forall a, (if f a then 1 else 0) + (if g a then 1 else 0)
             = (if h a then 1 else 0)) ->
  length (List.filter f l) + length (List.filter g l) = length (List.filter h l).
Proof.
  intros H. induction l as [|a rest IH]; [reflexivity|].
  cbn [List.filter]. specialize (H a).
  destruct (f a), (g a), (h a); cbn [length] in *; lia.
Qed.

Lemma filter_all_true {A : Type} (f : A -> bool) (l : list A) :
  (forall a, f a = true) -> List.filter f l = l.
Proof.
  intros H. induction l as [|a rest IH]; [reflexivity|].
  cbn [List.filter]. rewrite H, IH. reflexivity.
Qed.

(** X13. The stat cards and the table agree. Checked-in plus pending is
    the total. For any search text, the rows passing the "checked-in"
    filter and those passing "pending" add up to the rows passing "all",
    the former all checked in, the latter none. With a blank search box the
    three filters pass exactly as many rows as the three cards say. *)
Theorem stat_cards_match_the_filters
    (tsT : Timestamp -> string) (d : Dashboard) (search : string) :
  let under f := visibleRows tsT (mkDashboard (allAttendees d) f search) in
  statCheckedIn d + statPending d = statTotal d
  /\ length (under "checked-in") + length (under "pending")
     = length (under "all")
  /\ Forall (fun a => truthy (snd a !! "checkedIn") = true) (under "checked-in")
  /\ Forall (fun a => truthy (snd a !! "checkedIn") = false) (under "pending")
  /\ (Js.allWhiteSpace search = true ->
        length (under "checked-in") = statCheckedIn d
        /\ length (under "pending") = statPending d
        /\ under "all" = allAttendees d).
Proof.
  cbv zeta.
  assert (Hle : statCheckedIn d <= statTotal d).
  { unfold statCheckedIn, statTotal. apply filter_length_le. }
  split; [unfold statPending; lia|]. split.
  { unfold visibleRows. cbn [allAttendees]. apply filter_split_length.
    intros a. unfold rowShown. cbn [currentFilter String.eqb Ascii.eqb
      Bool.eqb andb].
    destruct (truthy (snd a !! "checkedIn")); cbn [negb andb];
      destruct (Js.truthyStr _); try destruct (strIncludes _ _); reflexivity. }
  split.
  { unfold visibleRows. apply List.Forall_forall. intros a Ha.
    apply filter_In in Ha as [_ Ha]. unfold rowShown in Ha.
    cbn [currentFilter String.eqb Ascii.eqb Bool.eqb andb] in Ha.
    destruct (truthy (snd a !! "checkedIn")); [reflexivity | discriminate Ha]. }
  split.
  { unfold visibleRows. apply List.Forall_forall. intros a Ha.
    apply filter_In in Ha as [_ Ha]. unfold rowShown in Ha.
    cbn [currentFilter String.eqb Ascii.eqb Bool.eqb andb] in Ha.
    destruct (truthy (snd a !! "checkedIn")); [discriminate Ha | reflexivity]. }
  intros Hblank.
  assert (Hq : forall f, Js.truthyStr
                 (Some (searchQuery (mkDashboard (allAttendees d) f search)))
               = false).
  { intros f. apply searchQuery_blank. exact Hblank. }
  assert (Hall : visibleRows tsT (mkDashboard (allAttendees d) "all" search)
                 = allAttendees d).
  { unfold visibleRows. cbn [allAttendees]. apply filter_all_true.
    intros a. unfold rowShown. rewrite Hq. reflexivity. }
  assert (Hchk : length (visibleRows tsT
                   (mkDashboard (allAttendees d) "checked-in" search))
                 = statCheckedIn d).
  { unfold visibleRows, statCheckedIn. cbn [allAttendees]. f_equal.
    apply List.filter_ext. intros a. unfold rowShown. rewrite Hq.
    cbn [currentFilter String.eqb Ascii.eqb Bool.eqb andb].
    destruct (truthy (snd a !! "checkedIn")); reflexivity. }
  split; [exact Hchk|]. split; [|exact Hall].
  assert (Hsum : length (visibleRows tsT
                   (mkDashboard (allAttendees d) "checked-in" search))
                 + length (visibleRows tsT
                     (mkDashboard (allAttendees d) "pending" search))
                 = statTotal d).
  { unfold statTotal. rewrite <- Hall at 3.
    unfold visibleRows. cbn [allAttendees]. apply filter_split_length.
    intros a. unfold rowShown. rewrite !Hq.
    cbn [currentFilter String.eqb Ascii.eqb Bool.eqb andb].
    destruct (truthy (snd a !! "checkedIn")); reflexivity. }
  unfold statPending. lia.
Qed.

(** ** Deleting an event *)

Lemma NoDup_fst_inj {A B : Type} (l : list (A * B)) (x y : A * B) :
  NoDup (map fst l) -> In x l -> In y l -> fst x = fst y -> x = y.
Proof.
  induction l as [|z rest IH]; intros Hnd Hx Hy E; [destruct Hx|].
  cbn [map] in Hnd. apply NoDup_cons in Hnd as [Hz Hrest].
  assert (Hout : forall u, In u rest -> fst u <> fst z).
  { intros u Hu Eu. apply Hz. rewrite <- Eu.
    apply list_elem_of_In. apply in_map. exact Hu. }
  destruct Hx as [->|Hx], Hy as [->|Hy].
  - reflexivity.
  - exfalso. apply (Hout y Hy). congruence.
  - exfalso. apply (Hout x Hx). congruence.
  - apply IH; assumption.
Qed.

Lemma filter_twice_same {A : Type} (f g : A -> bool) (l : list A) :
  (forall a, In a l -> f a = true -> g a = true) ->
  List.filter f (List.filter g l) = List.filter f l.
Proof.
  intros H. induction l as [|a rest IH]; [reflexivity|].
  cbn [List.filter].
  assert (IH' : List.filter f (List.filter g rest) = List.filter f rest)
    by (apply IH; intros b Hb; apply H; right; exact Hb).
  destruct (g a) eqn:Eg; cbn [List.filter]; rewrite IH'.
  - reflexivity.
  - destruct (f a) eqn:Ef; [|reflexivity].
    rewrite (H a (or_introl eq_refl) Ef) in Eg. discriminate Eg.
Qed.

Lemma filter_twice_none {A : Type} (f g : A -> bool) (l : list A) :
  (forall a, In a l -> f a = true -> g a = false) ->
  List.filter f (List.filter g l) = [].
Proof.
  intros H. induction l as [|a rest IH]; [reflexivity|].
  cbn [List.filter].
  assert (IH' : List.filter f (List.filter g rest) = [])
    by (apply IH; intros b Hb; apply H; right; exact Hb).
  destruct (g a) eqn:Eg; [|exact IH'].
  cbn [List.filter]. destruct (f a) eqn:Ef; [|exact IH'].
  rewrite (H a (or_introl eq_refl) Ef) in Eg. discriminate Eg.
Qed.

(** What the batch of a cascade removes: every attendee of the event and,
    document ids being unique, nothing else. *)
Lemma cascade_batch (e : string) (ds : list (DocId * Doc)) :
  let ids := map fst (List.filter (ofEvent e) ds) in
  let kept := List.filter (fun x => negb (existsb (Nat.eqb (fst x)) ids)) ds in
  List.filter (ofEvent e) kept = []
  /\ (NoDup (map fst ds) ->
      List.filter (fun x => negb (ofEvent e x)) kept
      = List.filter (fun x => negb (ofEvent e x)) ds).
Proof.
  cbv zeta. split.
  - apply filter_twice_none. intros a Ha Hof.
    apply negb_false_iff, existsb_exists. exists (fst a).
    split; [|apply Nat.eqb_refl].
    apply in_map, filter_In. auto.
  - intros Hnd. apply filter_twice_same. intros a Ha Hof.
    apply negb_true_iff. apply negb_true_iff in Hof.
    destruct (existsb _ _) eqn:Ex; [|reflexivity].
    apply existsb_exists in Ex as (i & Hi & Ei).
    apply Nat.eqb_eq in Ei. subst i.
    apply in_map_iff in Hi as (b & Eb & Hb).
    apply filter_In in Hb as [Hb Hofb].
    assert (b = a) by (apply (NoDup_fst_inj ds); auto). subst b.
    congruence.
Qed.

Lemma loadEvents_cloud (env : Env)
    (order : list (string * EventRec) -> list (string * EventRec))
    (page : EventsPage) (c : Cloud) :
  snd (fst (loadEvents env order page c)) = bumpCloud c.
Proof.
  unfold loadEvents, eventsGet.
  destruct (settle None _ _); [reflexivity|].
  destruct (order (eventsOf c)) as [|first rest]; [reflexivity|].
  destruct (negb (Js.truthyStr (selectedEventId (selected page)))); reflexivity.
Qed.

(** X14. Deleting an event leaves every other event and every attendee of
    another event as they were, whatever the store answers. The event
    document goes only after its attendees: whenever the event has been
    removed, no attendee carrying its id is left; when a step fails before,
    the event stays. A dismissed confirmation changes nothing and sends
    nothing. *)
Theorem delete_cascade_spares_other_events
    (env : Env) (order : list (string * EventRec) -> list (string * EventRec))
    (confirmed : bool) (e eventName : string) (page : EventsPage) (c : Cloud) :
  NoDup (map fst (docs (attendeesOf c))) ->
  let r := handleDeleteEvent env order confirmed e eventName page c in
  let c' := snd (fst r) in
  let others := List.filter (fun x => negb (String.eqb (fst x) e)) in
  List.filter (fun x => negb (ofEvent e x)) (docs (attendeesOf c'))
    = List.filter (fun x => negb (ofEvent e x)) (docs (attendeesOf c))
  /\ others (eventsOf c') = others (eventsOf c)
  /\ (eventsOf c' = eventsOf c
      \/ (eventsOf c' = others (eventsOf c)
          /\ List.filter (ofEvent e) (docs (attendeesOf c')) = []))
  /\ (confirmed = false -> r = (page, c, [])).
Proof.
  intros Hnd. cbv zeta. unfold handleDeleteEvent.
  destruct confirmed; cbn [negb]; [|auto].
  unfold attendeesOfEvent.
  destruct (settle None (env (calls (attendeesOf c))) (calls (attendeesOf c)));
    [cbn [fst snd bumpCloud attendeesOf eventsOf bump docs];
     repeat split; auto; discriminate|].
  destruct (cascade_batch e (docs (attendeesOf c))) as [Hnone Hsame].
  cbv zeta in Hnone, Hsame. specialize (Hsame Hnd).
  set (ids := map fst (List.filter (ofEvent e) (docs (attendeesOf c)))) in *.
  assert (Hempty : ids = [] -> List.filter (ofEvent e) (docs (attendeesOf c)) = []).
  { unfold ids. intros H. apply map_eq_nil in H. exact H. }
  unfold batchDelete.
  destruct ids as [|i0 ids'] eqn:Eids.
  - (* no attendee: the batch sends nothing *)
    specialize (Hempty eq_refl).
    unfold eventDelete. cbn [bumpCloud attendeesOf eventsOf bump docs calls].
    destruct (settle None (env (S (calls (attendeesOf c)))) _);
      [cbn [fst snd bumpCloud attendeesOf eventsOf bump docs];
       repeat split; auto; discriminate|].
    match goal with
    | |- context [loadEvents env order ?p ?cc] =>
        pose proof (loadEvents_cloud env order p cc) as Hl;
        destruct (loadEvents env order p cc) as [[page' c4] t]
    end.
    cbn [fst snd] in *. subst c4.
    cbn [bumpCloud attendeesOf eventsOf bump docs].
    split; [reflexivity|]. split.
    { apply filter_twice_same. auto. }
    split; [right; split; [reflexivity | exact Hempty] | discriminate].
  - cbn [bumpCloud attendeesOf eventsOf bump docs calls nextId writes].
    destruct (settle None (env (S (calls (attendeesOf c)))) _);
      [cbn [fst snd bumpCloud attendeesOf eventsOf bump docs];
       repeat split; auto; discriminate|].
    unfold eventDelete. cbn [attendeesOf eventsOf docs calls nextId writes].
    destruct (settle None (env (S (S (calls (attendeesOf c))))) _).
    + cbn [fst snd bumpCloud attendeesOf eventsOf bump docs].
      split; [exact Hsame|]. split; [reflexivity|].
      split; [left; reflexivity | discriminate].
    + match goal with
      | |- context [loadEvents env order ?p ?cc] =>
          pose proof (loadEvents_cloud env order p cc) as Hl;
          destruct (loadEvents env order p cc) as [[page' c4] t]
      end.
      cbn [fst snd] in *. subst c4.
      cbn [bumpCloud attendeesOf eventsOf bump docs].
      split; [exact Hsame|]. split.
      { apply filter_twice_same. auto. }
      split; [right; split; [reflexivity | exact Hnone] | discriminate].
Qed.

Lemma delete_cascade_spares_other_events_witness :
  let r := handleDeleteEvent servedEnv asStored true "E1" "Tech Fest"
             demoPage demoCloud in
  let c' := snd (fst r) in
  let others := List.filter (fun x => negb (String.eqb (fst x) "E1")) in
  List.filter (fun x => negb (ofEvent "E1" x)) (docs (attendeesOf c'))
    = List.filter (fun x => negb (ofEvent "E1" x)) (docs (attendeesOf demoCloud))
  /\ others (eventsOf c') = others (eventsOf demoCloud)
  /\ (eventsOf c' = eventsOf demoCloud
      \/ (eventsOf c' = others (eventsOf demoCloud)
          /\ List.filter (ofEvent "E1") (docs (attendeesOf c')) = []))
  /\ (true = false -> r = (demoPage, demoCloud, [])).
Proof.
  apply (delete_cascade_spares_other_events servedEnv asStored true
           "E1" "Tech Fest" demoPage demoCloud).
  cbn.
  repeat (apply NoDup_cons_2; [rewrite ?elem_of_cons, elem_of_nil; lia|]).
  apply NoDup_nil_2.
Defined.

(** ** The selection after a delete *)

Lemma isSelected_true (sel : Events) (e : string) :
  isSelected sel e = true -> selectedEventId sel = Some e.
Proof.
  unfold isSelected. destruct (selectedEventId sel) as [s|]; [|discriminate].
  intros H. apply String.eqb_eq in H. subst. reflexivity.
Qed.

Lemma head_of_others (order : list (string * EventRec) -> list (string * EventRec))
    (e : string) (evs : list (string * EventRec)) (x : string * EventRec) :
  (forall l, Permutation (order l) l) ->
  head (order (List.filter (fun x => negb (String.eqb (fst x) e)) evs)) = Some x ->
  fst x <> e.
Proof.
  intros Hperm Hhead.
  assert (Hin : In x (order (List.filter
                               (fun x => negb (String.eqb (fst x) e)) evs))).
  { destruct (order _) as [|y rest]; [discriminate Hhead|].
    injection Hhead as ->. left. reflexivity. }
  apply (Permutation_in _ (Hperm _)) in Hin.
  apply filter_In in Hin as [_ Hne]. apply negb_true_iff in Hne.
  apply String.eqb_neq. exact Hne.
Qed.

(** X15. After a delete that the store served, the page lists the
    remaining events and never keeps the deleted event selected: if it was
    the selected one, or nothing was selected, the newest remaining event
    becomes selected (none when no event remains); another selected event
    stays selected. *)
Theorem delete_reselects_among_remaining
    (env : Env) (order : list (string * EventRec) -> list (string * EventRec))
    (e eventName : string) (page : EventsPage) (c : Cloud) :
  (forall l, Permutation (order l) l) ->
  (forall k, served (env k) = true) ->
  let r := handleDeleteEvent env order true e eventName page c in
  let remaining :=
    List.filter (fun x => negb (String.eqb (fst x) e)) (eventsOf c) in
  let before := selectedEventId (selected page) in
  let after := selectedEventId (selected (fst (fst r))) in
  eventsOf (snd (fst r)) = remaining
  /\ allEvents (fst (fst r)) = order remaining
  /\ after <> Some e
  /\ (isSelected (selected page) e || negb (Js.truthyStr before) = true ->
       order remaining <> [] ->
       after = fst <$> head (order remaining))
  /\ (isSelected (selected page) e = false -> Js.truthyStr before = true ->
       selected (fst (fst r)) = selected page).
Proof.
  intros Hperm Hs. cbv zeta. unfold handleDeleteEvent. cbn [negb].
  unfold attendeesOfEvent. rewrite settle_bare, Hs.
  set (w := attendeesOf c).
  assert (Hc3 : exists w3,
            eventDelete env e
              (snd (batchDelete env
                      (map fst (List.filter (ofEvent e) (docs w)))
                      (bumpCloud c)))
            = (None,
               mkCloud w3 (List.filter (fun x => negb (String.eqb (fst x) e))
                                       (eventsOf c)))
            /\ fst (batchDelete env
                      (map fst (List.filter (ofEvent e) (docs w)))
                      (bumpCloud c)) = None).
  { unfold batchDelete.
    destruct (map fst (List.filter (ofEvent e) (docs w))) as [|i0 ids'].
    - cbn [snd fst]. unfold eventDelete. rewrite settle_bare, Hs.
      eexists. split; reflexivity.
    - rewrite settle_bare, Hs. cbn [snd fst]. unfold eventDelete.
      rewrite settle_bare, Hs. eexists. split; reflexivity. }
  destruct Hc3 as (w3 & Hdel & Hbatch).
  destruct (batchDelete env (map fst (List.filter (ofEvent e) (docs w)))
              (bumpCloud c)) as [b c2].
  cbn [fst snd] in Hdel, Hbatch. subst b. rewrite Hdel.
  set (remaining := List.filter (fun x => negb (String.eqb (fst x) e))
                                (eventsOf c)) in *.
  set (sel' := if isSelected (selected page) e
               then mkEvents None "" else selected page).
  unfold loadEvents, eventsGet. cbn [attendeesOf eventsOf selected].
  rewrite settle_bare, Hs.
  assert (Hsel' : selectedEventId sel' <> Some e).
  { unfold sel'. destruct (isSelected (selected page) e) eqn:Ei;
      [discriminate|].
    intros H. unfold isSelected in Ei. rewrite H, String.eqb_refl in Ei.
    discriminate Ei. }
  destruct (order remaining) as [|first rest] eqn:Eord.
  - cbn [fst snd eventsOf allEvents selected].
    split; [reflexivity|]. split; [reflexivity|]. split; [exact Hsel'|].
    split; [intros _ H; contradiction|].
    intros Ei _. unfold sel'. rewrite Ei. reflexivity.
  - assert (Hfirst : fst first <> e).
    { apply (head_of_others order e (eventsOf c) first Hperm).
      fold remaining. rewrite Eord. reflexivity. }
    destruct (Js.truthyStr (selectedEventId sel')) eqn:Et; cbn [negb].
    + cbn [fst snd eventsOf allEvents selected].
      split; [reflexivity|]. split; [reflexivity|]. split; [exact Hsel'|].
      unfold sel' in *.
      destruct (isSelected (selected page) e) eqn:Ei.
      * cbn in Et. discriminate Et.
      * split; [|reflexivity]. cbn [orb]. rewrite Et. discriminate.
    + cbn [selectEvent fst snd eventsOf allEvents selected selectedEventId].
      split; [reflexivity|]. split; [reflexivity|].
      split; [congruence|]. split; [reflexivity|].
      intros Ei Hb. unfold sel' in Et. rewrite Ei, Hb in Et. discriminate Et.
Qed.

Lemma delete_reselects_among_remaining_witness :
  let r := handleDeleteEvent servedEnv asStored true "E1" "Tech Fest"
             demoPage demoCloud in
  selectedEventId (selected (fst (fst r))) = Some "E2"
  /\ map fst (allEvents (fst (fst r))) = ["E2"].
Proof.
  pose proof (delete_reselects_among_remaining servedEnv asStored
                "E1" "Tech Fest" demoPage demoCloud
                (fun l => Permutation_refl l) (fun k => eq_refl)) as H.
  cbv zeta in H. destruct H as (_ & Hall & _ & Hsel & _).
  split.
  - rewrite Hsel; [reflexivity | reflexivity | discriminate].
  - rewrite Hall. reflexivity.
Defined.

(** ** Loading the dashboard *)

(** X16. The dashboard only ever lists attendees of the selected event,
    and loading it never writes. With no event selected the list is emptied
    and the store is not contacted; otherwise one read is sent: when it
    fails the list stays as it was, when it is served the list becomes the
    stored records that carry the selected event's id (and a creation
    time), in the store's order. The filter and the search text are kept. *)
Theorem dashboard_lists_selected_event_only
    (env : Env) (tsT : Timestamp -> string)
    (order : list (DocId * Doc) -> list (DocId * Doc))
    (ev : Events) (d : Dashboard) (w : World) :
  (forall l, Permutation (order l) l) ->
  let r := loadDashboard env tsT order ev d w in
  let d' := fst (fst r) in
  let w' := snd (fst r) in
  docs w' = docs w /\ writes w' = writes w
  /\ currentFilter d' = currentFilter d /\ searchInput d' = searchInput d
  /\ (Js.truthyStr (selectedEventId ev) = false ->
        allAttendees d' = [] /\ w' = w)
  /\ (forall e, selectedEventId ev = Some e -> e <> "" ->
        calls w' = S (calls w)
        /\ (served (env (calls w)) = false -> d' = d)
        /\ (served (env (calls w)) = true ->
             Permutation (allAttendees d')
                         (List.filter (listedFor e) (docs w))
             /\ Forall (fun x => snd x !! "eventId" = Some (VStr e))
                       (allAttendees d'))).
Proof.
  intros Hperm. cbv zeta. unfold loadDashboard.
  destruct (Js.truthyStr (getSelectedEventId ev)) eqn:Et; cbn [negb].
  - assert (Hno : Js.truthyStr (selectedEventId ev) = false ->
                  forall P : Prop, P).
    { unfold getSelectedEventId in Et. intros Hf. congruence. }
    rewrite settle_bare.
    destruct (served (env (calls w))) eqn:Es.
    + set (rows := order (List.filter
                            (listedFor (Js.orEmpty (getSelectedEventId ev)))
                            (docs w))).
      assert (Hrows : forall e0, selectedEventId ev = Some e0 -> e0 <> "" ->
                Permutation rows (List.filter (listedFor e0) (docs w))
                /\ Forall (fun x => snd x !! "eventId" = Some (VStr e0)) rows).
      { intros e0 Hsel Hne. unfold rows, getSelectedEventId. rewrite Hsel.
        destruct (truthyStr_Some e0 Hne) as [_ O]. rewrite O.
        split; [apply Hperm|].
        apply List.Forall_forall. intros x Hx.
        apply (Permutation_in _ (Hperm _)) in Hx.
        apply filter_In in Hx as [_ Hx].
        unfold listedFor, ofEvent, fieldIs in Hx.
        apply andb_prop in Hx as [Hx _].
        apply bool_decide_eq_true in Hx. exact Hx. }
      destruct (renderTable tsT (mkDashboard rows (currentFilter d)
                                             (searchInput d)))
        as [t [err|]];
        cbn [fst snd bump docs writes calls currentFilter searchInput
             allAttendees];
        (split; [reflexivity|]); (split; [reflexivity|]);
        (split; [reflexivity|]); (split; [reflexivity|]);
        (split; [intros Hf; apply (Hno Hf)|]);
        intros e0 Hsel Hne; (split; [reflexivity|]);
        (split; [intros Hf; discriminate Hf|]); intros _;
        apply Hrows; assumption.
    + cbn [fst snd bump docs writes calls].
      split; [reflexivity|]. split; [reflexivity|].
      split; [reflexivity|]. split; [reflexivity|].
      split; [intros Hf; apply (Hno Hf)|].
      intros e0 Hsel Hne. split; [reflexivity|].
      split; [reflexivity | intros Hf; discriminate Hf].
  - cbn [fst snd currentFilter searchInput allAttendees].
    split; [reflexivity|]. split; [reflexivity|].
    split; [reflexivity|]. split; [reflexivity|].
    split; [auto|].
    intros e0 Hsel Hne. exfalso. unfold getSelectedEventId in Et.
    rewrite Hsel in Et. destruct (truthyStr_Some e0 Hne) as [T _]. congruence.
Qed.

Lemma dashboard_lists_selected_event_only_witness :
  let r := loadDashboard servedEnv (fun _ => "") asStored festival
             (mkDashboard [] "all" "")
             (mkWorld [(0, <["createdAt" := VTime 3]> (attendee "E1" "1" "A" None));
                       (1, <["createdAt" := VTime 4]> (attendee "E2" "1" "Z" None))]
                      2 0 0) in
  map fst (allAttendees (fst (fst r))) = [0]
  /\ writes (snd (fst r)) = 0.
Proof.
  pose proof (dashboard_lists_selected_event_only servedEnv (fun _ => "")
                asStored festival (mkDashboard [] "all" "")
                (mkWorld [(0, <["createdAt" := VTime 3]> (attendee "E1" "1" "A" None));
                          (1, <["createdAt" := VTime 4]> (attendee "E2" "1" "Z" None))]
                         2 0 0)
                (fun l => Permutation_refl l)) as H.
  cbv zeta in H. destruct H as (_ & Hw & _).
  split; [vm_compute; reflexivity | exact Hw].
Defined.

(** ** An import against a store that answers in time *)

Lemma uploadLoop_prompt_counts (env : Env) (qr : gmap string string)
    (rows : list Row) :
  prompt env ->
  forall (c : Counters) (w : World),
    let c' := fst (fst (uploadLoop env qr rows c w)) in
    let w' := snd (fst (uploadLoop env qr rows c w)) in
    failed c' = failed c
    /\ uploaded c' + skipped c' = uploaded c + skipped c + length rows
    /\ writes w' + uploaded c = writes w + uploaded c'
    /\ length (docs w') + uploaded c = length (docs w) + uploaded c'
    /\ calls w' + uploaded c = calls w + length rows + uploaded c'
    /\ snd (uploadLoop env qr rows c w) = [].
Proof.
  intros Hp. induction rows as [|row rest IH]; intros c w; cbv zeta.
  - cbn. repeat split; lia.
  - cbn [uploadLoop]. unfold uploadRow, storeGet.
    destruct (settle_prompt env (calls w) Hp) as [_ E]. rewrite E.
    destruct (firstMatch (QPrn (prn row)) (docs w)) as [hit|].
    + specialize (IH (mkCounters (uploaded c) (S (skipped c)) (failed c))
                     (bump w)). cbv zeta in IH.
      destruct (uploadLoop env qr rest _ (bump w)) as [[c2 w2] t2].
      cbn [fst snd bump docs writes calls uploaded skipped failed length app] in *.
      destruct IH as (H1 & H2 & H3 & H4 & H5 & H6).
      repeat split; try lia. exact H6.
    + unfold storeAdd. cbn [bump calls docs nextId writes].
      destruct (settle_prompt env (S (calls w)) Hp) as [_ E2]. rewrite E2.
      destruct (Hp (S (calls w))) as [Hs _]. rewrite Hs.
      match goal with
      | |- context [uploadLoop env qr rest ?cc ?ww] =>
          specialize (IH cc ww); cbv zeta in IH;
          destruct (uploadLoop env qr rest cc ww) as [[c2 w2] t2]
      end.
      cbn [fst snd docs writes calls uploaded skipped failed length app] in *.
      rewrite length_app in IH. cbn [length] in IH.
      destruct IH as (H1 & H2 & H3 & H4 & H5 & H6).
      repeat split; try lia. exact H6.
Qed.

(** X17. Against a store that answers every request in time no row fails:
    the import ends with the success toast, every row is either uploaded or
    skipped, each uploaded row is one write and one new record, and the run
    sends one probe, one duplicate check per row and one add per uploaded
    row. *)
Theorem import_with_prompt_store_never_fails
    (env : Env) (u : Upload) (w : World) :
  prompt env -> parsedData u <> [] ->
  let n := length (parsedData u) in
  exists c w',
    processAndUpload env u w
    = (Finished c n, w',
       [ShowResults (uploaded c) (skipped c) 0;
        ShowToast (MsgUploadComplete (uploaded c) (skipped c) 0) TSuccess])
    /\ failed c = 0
    /\ uploaded c + skipped c = n
    /\ writes w' = writes w + uploaded c
    /\ length (docs w') = length (docs w) + uploaded c
    /\ calls w' = calls w + 1 + n + uploaded c.
Proof.
  intros Hp Hrows. cbv zeta. unfold processAndUpload, storeGet.
  assert (Hlen : (length (parsedData u) =? 0)%nat = false).
  { destruct (parsedData u); [contradiction | reflexivity]. }
  rewrite Hlen. destruct (settle_prompt env (calls w) Hp) as [E _]. rewrite E.
  pose proof (uploadLoop_prompt_counts env (qrDataMap u) (parsedData u) Hp
                (mkCounters 0 0 0) (bump w)) as H. cbv zeta in H.
  destruct (uploadLoop env (qrDataMap u) (parsedData u) (mkCounters 0 0 0)
              (bump w)) as [[c w2] t].
  cbn [fst snd bump docs writes calls uploaded skipped failed] in H.
  destruct H as (H1 & H2 & H3 & H4 & H5 & H6). subst t.
  exists c, w2. rewrite H1. cbn [app Nat.ltb Nat.leb].
  repeat split; lia.
Qed.

Lemma import_with_prompt_store_never_fails_witness :
  let u := fst (onFileReady demoQr fullHeader
                  [rawRow "A" "1" "a@x.com" "1" "FE";
                   rawRow "B" "1" "b@x.com" "2" "SE"]) in
  exists c w',
    processAndUpload servedEnv u emptyWorld
    = (Finished c 2, w',
       [ShowResults (uploaded c) (skipped c) 0;
        ShowToast (MsgUploadComplete (uploaded c) (skipped c) 0) TSuccess])
    /\ failed c = 0
    /\ uploaded c + skipped c = 2
    /\ writes w' = 0 + uploaded c
    /\ length (docs w') = 0 + uploaded c
    /\ calls w' = 0 + 1 + 2 + uploaded c.
Proof.
  apply (import_with_prompt_store_never_fails servedEnv
           (fst (onFileReady demoQr fullHeader
                   [rawRow "A" "1" "a@x.com" "1" "FE";
                    rawRow "B" "1" "b@x.com" "2" "SE"]))
           emptyWorld).
  - intros k. split; [reflexivity | vm_compute; reflexivity].
  - vm_compute. discriminate.
Defined.

(** ** Searching the table *)

Lemma startsWith_spec (s n : string) :
  startsWith s n = true <-> exists post, s = n +:+ post.
Proof.
  revert s. induction n as [|c n IH]; intros s.
  - destruct s; cbn; split; eauto.
  - destruct s as [|c' r]; cbn [startsWith].
    + split; [discriminate | intros [post H]; discriminate H].
    + rewrite andb_true_iff, IH. split.
      * intros [Ec [post ->]]. apply Ascii.eqb_eq in Ec. subst. eauto.
      * intros [post H]. rewrite str_app_cons in H. injection H as Hc Hr.
        subst. split; [apply Ascii.eqb_refl | eauto].
Qed.

Lemma strIncludes_spec (h n : string) :
  strIncludes h n = true <-> occursIn n h.
Proof.
  unfold occursIn. induction h as [|c r IH]; cbn [strIncludes].
  - rewrite orb_false_r, startsWith_spec. split.
    + intros [post H]. exists "", post. exact H.
    + intros (pre & post & H). destruct pre as [|x pre]; [eauto|].
      rewrite str_app_cons in H. discriminate H.
  - rewrite orb_true_iff, startsWith_spec, IH. split.
    + intros [[post H] | (pre & post & H)].
      * exists "", post. exact H.
      * exists (String c pre), post. rewrite str_app_cons, H. reflexivity.
    + intros (pre & post & H). destruct pre as [|x pre].
      * left. exists post. exact H.
      * right. rewrite str_app_cons in H. injection H as _ H. eauto.
Qed.

Lemma occursIn_trans (a b c : string) :
  occursIn a b -> occursIn b c -> occursIn a c.
Proof.
  intros (p1 & q1 & ->) (p2 & q2 & ->).
  exists (p2 +:+ p1), (q1 +:+ q2). rewrite !str_app_assoc. reflexivity.
Qed.

Lemma toLowerCase_app (a b : string) :
  Js.toLowerCase (a +:+ b) = Js.toLowerCase a +:+ Js.toLowerCase b.
Proof.
  induction a as [|c a IH]; [reflexivity|].
  rewrite str_app_cons.
  change (String (Js.lowerChar c) (Js.toLowerCase (a +:+ b))
          = String (Js.lowerChar c) (Js.toLowerCase a +:+ Js.toLowerCase b)).
  rewrite IH. reflexivity.
Qed.

Lemma toLowerCase_trimStart (s : string) :
  Js.toLowerCase (Js.trimStart s) = Js.trimStart (Js.toLowerCase s).
Proof.
  induction s as [|c r IH]; [reflexivity|].
  change (Js.toLowerCase (String c r))
    with (String (Js.lowerChar c) (Js.toLowerCase r)).
  cbn [Js.trimStart]. rewrite isWhiteSpace_lowerChar.
  destruct (Js.isWhiteSpace c); [exact IH | reflexivity].
Qed.

Lemma toLowerCase_revOnto (s acc : string) :
  Js.toLowerCase (Js.revOnto s acc)
  = Js.revOnto (Js.toLowerCase s) (Js.toLowerCase acc).
Proof.
  revert acc. induction s as [|c r IH]; intros acc; [reflexivity|].
  change (Js.toLowerCase (String c r))
    with (String (Js.lowerChar c) (Js.toLowerCase r)).
  cbn [Js.revOnto]. rewrite IH. reflexivity.
Qed.

(** Trimming and lower-casing commute. *)
Lemma toLowerCase_trim (s : string) :
  Js.trim (Js.toLowerCase s) = Js.toLowerCase (Js.trim s).
Proof.
  unfold Js.trim, Js.trimEnd, Js.reverse.
  rewrite !toLowerCase_revOnto, !toLowerCase_trimStart, !toLowerCase_revOnto,
          !toLowerCase_trimStart.
  reflexivity.
Qed.

(** X18. The search box finds an attendee by any fragment of the name, the
    prn or the email, whatever the letter case of the typed text and of the
    stored value, and with blanks around the typed text ignored: under the
    "all" filter such a row always passes the table's filter, and under
    "checked-in" or "pending" it passes exactly when its status matches. *)
Theorem search_finds_by_fragment
    (tsT : Timestamp -> string) (l : list (DocId * Doc)) (a : Doc)
    (k v text : string) :
  k = "name" \/ k = "prn" \/ k = "email" ->
  a !! k = Some (VStr v) ->
  occursIn (Js.toLowerCase (Js.trim text)) (Js.toLowerCase v) ->
  rowShown tsT (mkDashboard l "all" text) a = true
  /\ rowShown tsT (mkDashboard l "checked-in" text) a
     = truthy (a !! "checkedIn")
  /\ rowShown tsT (mkDashboard l "pending" text) a
     = negb (truthy (a !! "checkedIn")).
Proof.
  intros Hk Hv Hocc.
  assert (Hq : forall f,
            Js.truthyStr (Some (searchQuery (mkDashboard l f text))) = true ->
            strIncludes
              (Js.toLowerCase
                 (jsString tsT (a !! "name") +:+ " " +:+ jsString tsT (a !! "prn")
                  +:+ " " +:+ jsString tsT (a !! "email")))
              (searchQuery (mkDashboard l f text)) = true).
  { intros f _. apply strIncludes_spec. unfold searchQuery. cbn [searchInput].
    rewrite toLowerCase_trim.
    apply (occursIn_trans _ (Js.toLowerCase v)); [exact Hocc|].
    rewrite !toLowerCase_app.
    destruct Hk as [-> | [-> | ->]]; rewrite Hv; cbn [jsString].
    - exists "". eexists. reflexivity.
    - exists (Js.toLowerCase (jsString tsT (a !! "name")) +:+ Js.toLowerCase " "),
             (Js.toLowerCase " " +:+ Js.toLowerCase (jsString tsT (a !! "email"))).
      rewrite !str_app_assoc. reflexivity.
    - exists (Js.toLowerCase (jsString tsT (a !! "name")) +:+ Js.toLowerCase " "
              +:+ Js.toLowerCase (jsString tsT (a !! "prn")) +:+ Js.toLowerCase " "),
             "".
      rewrite str_app_nil_r, !str_app_assoc. reflexivity. }
  unfold rowShown. cbn [currentFilter String.eqb Ascii.eqb Bool.eqb andb].
  repeat split.
  - destruct (Js.truthyStr _) eqn:E; [apply (Hq "all" E) | reflexivity].
  - destruct (truthy (a !! "checkedIn")); cbn [negb]; [|reflexivity].
    destruct (Js.truthyStr _) eqn:E; [apply (Hq "checked-in" E) | reflexivity].
  - destruct (truthy (a !! "checkedIn")); cbn [negb]; [reflexivity|].
    destruct (Js.truthyStr _) eqn:E; [apply (Hq "pending" E) | reflexivity].
Qed.

Lemma search_finds_by_fragment_witness :
  rowShown (fun _ => "") (mkDashboard [] "all" "  ALI ")
           (attendee "E1" "1" "Alice" None) = true.
Proof.
  apply (search_finds_by_fragment (fun _ => "") []
           (attendee "E1" "1" "Alice" None) "name" "Alice" "  ALI ").
  - left. reflexivity.
  - reflexivity.
  - exists "". exists "ce". reflexivity.
Defined.
